(** * Cross-exchange arbitrage: a shallow embedding of the detection,
      execution-simulation and live-execution code, with its properties.

    Numbers that the Rust code holds as [f64] are modelled as exact
    rationals [Q]; where an [f64] division can see a zero divisor the
    IEEE result is modelled explicitly (see [Stats.F64]).  Counters ([u64],
    [u32]) are [nat].  A [HashMap] is an association list whose iteration
    order is the list order (any order the map may use is one such list). *)

From Stdlib Require Import QArith Qround Qminmax Qabs.
From Stdlib Require Import String Ascii List Bool ZArith Lia Lqa.
Import ListNotations.

Open Scope Q_scope.

(** ** Helpers for [f64] and [HashMap] *)

(** [a < b] on [f64]. *)
Definition qlt (a b : Q) : bool := negb (Qle_bool b a).

(** [f64::round]: round half away from zero. *)
Definition f64_round (x : Q) : Q :=
  inject_Z (if Qle_bool 0 x then Qfloor (x + (1#2))
            else (- Qfloor (- x + (1#2)))%Z).

(** [Option::unwrap_or]. *)
Definition unwrap_or {A} (o : option A) (d : A) : A :=
  match o with Some a => a | None => d end.

(** [HashMap::get] on an association list with string keys. *)
Fixpoint lookup {V} (k : string) (m : list (string * V)) : option V :=
  match m with
  | [] => None
  | (k', v) :: r => if String.eqb k k' then Some v else lookup k r
  end.

(** [HashMap::insert]: replace the binding of [k], or add one. *)
Fixpoint insert {V} (k : string) (v : V) (m : list (string * V))
  : list (string * V) :=
  match m with
  | [] => [(k, v)]
  | (k', v') :: r =>
      if String.eqb k k' then (k, v) :: r else (k', v') :: insert k v r
  end.

(** [HashMap::remove]. *)
Definition remove {V} (k : string) (m : list (string * V)) : list (string * V) :=
  filter (fun kv => negb (String.eqb k (fst kv))) m.

(** ** Connector types (src/connectors) *)

Inductive Exchange := Binance | Bybit.

Definition Exchange_eqb (a b : Exchange) : bool :=
  match a, b with
  | Binance, Binance | Bybit, Bybit => true
  | _, _ => false
  end.

Inductive OrderSide := Buy | Sell.

Inductive TimeInForce := GTC | IOC | FOK | GTX.

Definition TimeInForce_eqb (a b : TimeInForce) : bool :=
  match a, b with
  | GTC, GTC | IOC, IOC | FOK, FOK | GTX, GTX => true
  | _, _ => false
  end.

Inductive OrderStatus :=
  New | PartiallyFilled | Filled | Canceled | Rejected | Expired.

Module LimitOrder.
Record t := mk {
  symbol : string;
  side : OrderSide;
  quantity : Q;
  price : Q;
  time_in_force : TimeInForce;
  client_order_id : option string
}.
End LimitOrder.

Module OrderResponse.
Record t := mk {
  order_id : string;
  client_order_id : option string;
  symbol : string;
  side : OrderSide;
  quantity : Q;
  price : Q;
  status : OrderStatus;
  filled_quantity : Q;
  average_price : option Q;
  timestamp : Z
}.

(** [impl Default for OrderResponse] (src/trading/live_trading.rs). *)
Definition default : t :=
  mk EmptyString None EmptyString Buy 0 0 New 0 None 0.
End OrderResponse.

(** ** The error type ([ArbitrageError], src/lib.rs); messages are omitted. *)
Inductive ArbitrageError :=
  | Config | Connection | DataParsing | ParseError | NotImplemented
  | Trading | RiskManagement | Timeout.

(** ** Configuration (src/config/mod.rs), the fields the core reads. *)
Module Cfg.
Record StrategyConfig := mkStrategy {
  symbol : string;
  min_spread_bps : nat;
  max_position_size : Q
}.
Record ExecutionConfig := mkExecution {
  order_timeout_ms : nat;
  slippage_tolerance : Q;
  min_order_size : Q;
  allow_partial_fills : bool;
  max_retry_attempts : nat
}.
Record ArbitrageConfig := mkConfig {
  strategy : StrategyConfig;
  execution : ExecutionConfig
}.

(** [impl Default for ArbitrageConfig]. *)
Definition default : ArbitrageConfig :=
  mkConfig (mkStrategy "BTCUSDT" 10 1)
           (mkExecution 5000 (1#1000) (1#1000) true 3).
End Cfg.

(** ** Order books *)

Module OrderBook.

(** Modelled from the spec: the [data] module's [OrderBook] is not among
    the sources.  Section 3 of the spec: a book has a venue, a symbol, an
    ordered map of price to quantity for bids (descending) and asks
    (ascending) and a timestamp; a zero-quantity level removes that price
    point.  The best bid and ask are the first levels of each side. *)
Record t := mk {
  symbol : string;
  exchange : Exchange;
  bids : list (Q * Q);
  asks : list (Q * Q);
  timestamp : Z
}.

Definition new (symbol : string) (exchange : Exchange) : t :=
  mk symbol exchange [] [] 0.

Definition remove_level (p : Q) (l : list (Q * Q)) : list (Q * Q) :=
  filter (fun lv => negb (Qeq_bool p (fst lv))) l.

(** Insert a level before the first level that [before] says it precedes. *)
Fixpoint insert_level (before : Q -> Q -> bool) (p q : Q) (l : list (Q * Q))
  : list (Q * Q) :=
  match l with
  | [] => [(p, q)]
  | (p', q') :: r =>
      if before p p' then (p, q) :: l else (p', q') :: insert_level before p q r
  end.

Definition update_level before (p q : Q) (l : list (Q * Q)) : list (Q * Q) :=
  let l' := remove_level p l in
  if Qeq_bool q 0 then l' else insert_level before p q l'.

Definition update_bid (b : t) (p q : Q) : t :=
  mk (symbol b) (exchange b) (update_level (fun x y => qlt y x) p q (bids b))
     (asks b) (timestamp b).

Definition update_ask (b : t) (p q : Q) : t :=
  mk (symbol b) (exchange b) (bids b)
     (update_level (fun x y => qlt x y) p q (asks b)) (timestamp b).

Definition set_timestamp (b : t) (ts : Z) : t :=
  mk (symbol b) (exchange b) (bids b) (asks b) ts.

Definition best_bid (b : t) : option Q := option_map fst (hd_error (bids b)).
Definition best_ask (b : t) : option Q := option_map fst (hd_error (asks b)).
Definition best_bid_quantity (b : t) : option Q :=
  option_map snd (hd_error (bids b)).
Definition best_ask_quantity (b : t) : option Q :=
  option_map snd (hd_error (asks b)).

Definition mid_price (b : t) : option Q :=
  match best_bid b, best_ask b with
  | Some bid, Some ask => Some ((bid + ask) / 2)
  | _, _ => None
  end.

End OrderBook.

(** ** The spot strategy's detector (src/strategy/arbitrage.rs) *)

Module Spot.

Record ArbitrageOpportunity := mk {
  symbol : string;
  buy_exchange : Exchange;
  sell_exchange : Exchange;
  buy_price : Q;
  sell_price : Q;
  quantity : Q;
  spread_bps : Q;
  expected_profit : Q;
  timestamp : Z
}.

(** One of the two symmetric blocks of [detect_opportunities]: buy at the
    ask of [buy_book] on [buy_ex], sell at the bid of [sell_book] on
    [sell_ex]. *)
Definition scenario (cfg : Cfg.ArbitrageConfig) (now : Z)
    (buy_ex sell_ex : Exchange) (buy_book sell_book : OrderBook.t)
    : list ArbitrageOpportunity :=
  match OrderBook.best_ask buy_book, OrderBook.best_bid sell_book with
  | Some ask, Some bid =>
      if qlt ask bid then
        let spread_bps := f64_round ((bid - ask) / ask * 10000) in
        if Qle_bool (inject_Z (Z.of_nat (Cfg.min_spread_bps (Cfg.strategy cfg))))
                    spread_bps then
          let quantity :=
            Qmin (Qmin (unwrap_or (OrderBook.best_ask_quantity buy_book) 0)
                       (unwrap_or (OrderBook.best_bid_quantity sell_book) 0))
                 (Cfg.max_position_size (Cfg.strategy cfg)) in
          if qlt (Cfg.min_order_size (Cfg.execution cfg)) quantity then
            let expected_profit := (bid - ask) * quantity in
            [mk (Cfg.symbol (Cfg.strategy cfg)) buy_ex sell_ex ask bid
                quantity spread_bps expected_profit now]
          else []
        else []
      else []
  | _, _ => []
  end.

(** [ArbitrageStrategy::detect_opportunities]: the opportunities found on
    the two stored books (the statistics update is in [run_iteration]). *)
Definition detect_opportunities (cfg : Cfg.ArbitrageConfig) (now : Z)
    (binance_book bybit_book : option OrderBook.t)
    : list ArbitrageOpportunity :=
  match binance_book, bybit_book with
  | Some bn, Some bb =>
      scenario cfg now Binance Bybit bn bb ++ scenario cfg now Bybit Binance bb bn
  | _, _ => []
  end.

End Spot.

(** ** The futures strategy's detector (src/strategy/futures_arbitrage.rs) *)

Module Futures.

Record FuturesArbitrageOpportunity := mk {
  symbol : string;
  maker_exchange : Exchange;
  taker_exchange : Exchange;
  maker_side : OrderSide;
  taker_side : OrderSide;
  maker_price : Q;
  taker_price : Q;
  quantity : Q;
  spread_bps : Q;
  expected_profit : Q;
  maker_fee : Q;
  taker_fee : Q;
  risk_score : Q;
  timestamp : Z
}.

(** The fee constants of [analyze_maker_taker_opportunity]. *)
Definition bybit_maker_fee : Q := - (25 # 100000).
Definition binance_taker_fee : Q := 4 # 10000.

(** [calculate_risk_score]. *)
Definition calculate_risk_score (spread_bps quantity : Q) : Q :=
  let r1 := if qlt spread_bps 10 then 30
            else if qlt spread_bps 20 then 15 else 0 in
  let r2 := if qlt 1 quantity then 20
            else if qlt (1#2) quantity then 10 else 0 in
  Qmin (0 + r1 + r2 + 10) 100.

(** Scenario 1 of [analyze_maker_taker_opportunity]: sell on Bybit
    (maker, at its bid), buy on Binance (taker, at its ask). *)
Definition scenario1 (cfg : Cfg.ArbitrageConfig) (now : Z) (sym : string)
    (maker_book taker_book : OrderBook.t) : list FuturesArbitrageOpportunity :=
  match OrderBook.best_bid maker_book, OrderBook.best_ask taker_book with
  | Some bybit_bid, Some binance_ask =>
      if qlt binance_ask bybit_bid then
        let spread := bybit_bid - binance_ask in
        let spread_bps := f64_round (spread / binance_ask * 10000) in
        if Qle_bool (inject_Z (Z.of_nat (Cfg.min_spread_bps (Cfg.strategy cfg))))
                    spread_bps then
          let quantity :=
            Qmin (Qmin (unwrap_or (OrderBook.best_bid_quantity maker_book) 0)
                       (unwrap_or (OrderBook.best_ask_quantity taker_book) 0))
                 (Cfg.max_position_size (Cfg.strategy cfg)) in
          if qlt (Cfg.min_order_size (Cfg.execution cfg)) quantity then
            let maker_fee := bybit_maker_fee in
            let taker_fee := binance_taker_fee in
            let maker_rebate := bybit_bid * quantity * Qabs maker_fee in
            let taker_cost := binance_ask * quantity * taker_fee in
            let expected_profit := spread * quantity + maker_rebate - taker_cost in
            if qlt 0 expected_profit then
              [mk sym Bybit Binance Sell Buy bybit_bid binance_ask quantity
                  spread_bps expected_profit maker_fee taker_fee
                  (calculate_risk_score spread_bps quantity) now]
            else []
          else []
        else []
      else []
  | _, _ => []
  end.

(** Scenario 2: buy on Bybit (maker, at its ask), sell on Binance (taker,
    at its bid). *)
Definition scenario2 (cfg : Cfg.ArbitrageConfig) (now : Z) (sym : string)
    (maker_book taker_book : OrderBook.t) : list FuturesArbitrageOpportunity :=
  match OrderBook.best_ask maker_book, OrderBook.best_bid taker_book with
  | Some bybit_ask, Some binance_bid =>
      if qlt bybit_ask binance_bid then
        let spread := binance_bid - bybit_ask in
        let spread_bps := f64_round (spread / bybit_ask * 10000) in
        if Qle_bool (inject_Z (Z.of_nat (Cfg.min_spread_bps (Cfg.strategy cfg))))
                    spread_bps then
          let quantity :=
            Qmin (Qmin (unwrap_or (OrderBook.best_ask_quantity maker_book) 0)
                       (unwrap_or (OrderBook.best_bid_quantity taker_book) 0))
                 (Cfg.max_position_size (Cfg.strategy cfg)) in
          if qlt (Cfg.min_order_size (Cfg.execution cfg)) quantity then
            let maker_fee := bybit_maker_fee in
            let taker_fee := binance_taker_fee in
            let maker_rebate := bybit_ask * quantity * Qabs maker_fee in
            let taker_cost := binance_bid * quantity * taker_fee in
            let expected_profit := spread * quantity + maker_rebate - taker_cost in
            if qlt 0 expected_profit then
              [mk sym Bybit Binance Buy Sell bybit_ask binance_bid quantity
                  spread_bps expected_profit maker_fee taker_fee
                  (calculate_risk_score spread_bps quantity) now]
            else []
          else []
        else []
      else []
  | _, _ => []
  end.

Definition analyze_maker_taker_opportunity cfg now sym maker_book taker_book :=
  scenario1 cfg now sym maker_book taker_book
  ++ scenario2 cfg now sym maker_book taker_book.

(** The market-data cache: exchange -> symbol -> book. *)
Definition MarketData := list (Exchange * list (string * OrderBook.t)).

Fixpoint exchange_data (ex : Exchange) (md : MarketData)
  : option (list (string * OrderBook.t)) :=
  match md with
  | [] => None
  | (ex', d) :: r => if Exchange_eqb ex ex' then Some d else exchange_data ex r
  end.

(** [FuturesArbitrageStrategy::detect_opportunities] (the opportunities it
    returns; the statistics update is
    [FuturesStrategy.record_detected]). *)
Definition detect_opportunities (cfg : Cfg.ArbitrageConfig) (now : Z)
    (active_symbols : list string) (md : MarketData)
    : list FuturesArbitrageOpportunity :=
  match exchange_data Binance md, exchange_data Bybit md with
  | Some binance_books, Some bybit_books =>
      flat_map (fun sym =>
        match lookup sym binance_books, lookup sym bybit_books with
        | Some binance_book, Some bybit_book =>
            analyze_maker_taker_opportunity cfg now sym bybit_book binance_book
        | _, _ => []
        end) active_symbols
  | _, _ => []
  end.

End Futures.

(** ** The live-execution coordinator (src/trading/live_trading.rs) *)

Module Live.

Inductive result (A : Type) := Ok (a : A) | Err (e : ArbitrageError).
Arguments Ok {A} a.
Arguments Err {A} e.

Record Position := mkPosition {
  pos_exchange : Exchange;
  pos_symbol : string;
  size : Q;
  avg_price : Q;
  unrealized_pnl : Q;
  last_update : Z
}.

Record ExecutionStatistics := mkStats {
  total_orders : nat;
  successful_orders : nat;
  failed_orders : nat;
  avg_execution_time_ms : Q;
  total_volume : Q;
  total_fees : Q;
  success_rate : Q;
  last_execution : option Z
}.

Definition default_statistics : ExecutionStatistics :=
  mkStats 0 0 0 0 0 0 0 None.

(** The observable effects of the coordinator, in order: calls to the venue
    connectors, the [warn!] of a failed retry attempt, and sleeps. *)
Inductive Event :=
  | PlaceLimitOrder (ex : Exchange) (order : LimitOrder.t)
  | CancelOrder (ex : Exchange) (symbol order_id : string)
  | Disconnect (ex : Exchange)
  | AttemptFailed (attempt : nat) (e : ArbitrageError)
  | Sleep (ms : nat).

Record LiveState := mkLive {
  config : Cfg.ArbitrageConfig;
  (** the exchanges that have a connector *)
  connectors : list Exchange;
  active_orders : list (string * (Exchange * OrderResponse.t));
  positions : list (string * Position);
  statistics : ExecutionStatistics;
  emergency_shutdown_flag : bool;
  events : list Event
}.

(** What the venues answer, and what the clocks read, at the [n]-th event
    of the run: the connectors are external, so every answer is allowed. *)
Record Venues := mkVenues {
  place_reply : nat -> Exchange -> LimitOrder.t -> result OrderResponse.t;
  cancel_reply : nat -> Exchange -> string -> string -> result OrderResponse.t;
  disconnect_reply : nat -> Exchange -> result unit;
  elapsed_ms : nat -> Q;
  clock : nat -> Z
}.

(** Outcome of a computation: a [Result], or a panic. *)
Inductive outcome (A : Type) := Done (r : result A) | Panic.
Arguments Done {A} r.
Arguments Panic {A}.

(** The coordinator's monad: state passing with [Result] errors ([?]
    propagates [Err]) and panics. *)
Definition M (A : Type) := LiveState -> outcome A * LiveState.

Definition ret {A} (a : A) : M A := fun s => (Done (Ok a), s).
Definition fail {A} (e : ArbitrageError) : M A := fun s => (Done (Err e), s).
Definition panic {A} : M A := fun s => (Panic, s).

Definition bind {A B} (m : M A) (k : A -> M B) : M B :=
  fun s => match m s with
           | (Done (Ok a), s') => k a s'
           | (Done (Err e), s') => (Done (Err e), s')
           | (Panic, s') => (Panic, s')
           end.

(** Run [m] and hand its [Result] to the caller (a [match] on the result
    instead of [?]). *)
Definition attempt {A} (m : M A) : M (result A) :=
  fun s => match m s with
           | (Done r, s') => (Done (Ok r), s')
           | (Panic, s') => (Panic, s')
           end.

Definition get : M LiveState := fun s => (Done (Ok s), s).
Definition modify (f : LiveState -> LiveState) : M unit :=
  fun s => (Done (Ok tt), f s).

Notation "x <- m ;; k" := (bind m (fun x => k))
  (at level 61, m at next level, right associativity).
Notation "m ;; k" := (bind m (fun _ => k))
  (at level 61, right associativity).

Definition set_events (s : LiveState) (ev : list Event) : LiveState :=
  mkLive (config s) (connectors s) (active_orders s) (positions s)
         (statistics s) (emergency_shutdown_flag s) ev.
Definition set_active_orders (s : LiveState) a : LiveState :=
  mkLive (config s) (connectors s) a (positions s)
         (statistics s) (emergency_shutdown_flag s) (events s).
Definition set_statistics (s : LiveState) st : LiveState :=
  mkLive (config s) (connectors s) (active_orders s) (positions s)
         st (emergency_shutdown_flag s) (events s).
Definition set_shutdown (s : LiveState) b : LiveState :=
  mkLive (config s) (connectors s) (active_orders s) (positions s)
         (statistics s) b (events s).

Definition emit (e : Event) : M unit :=
  modify (fun s => set_events s (events s ++ [e])).

(** The index of the next event. *)
Definition now_index : M nat := s <- get ;; ret (length (events s)).

Definition has_connector (ex : Exchange) (s : LiveState) : bool :=
  existsb (Exchange_eqb ex) (connectors s).

Section Coordinator.

Variable venues : Venues.

(** [check_risk_limits]. *)
Definition check_risk_limits (s : LiveState) (order : LimitOrder.t) : result unit :=
  let current_position :=
    unwrap_or (option_map size (lookup (LimitOrder.symbol order) (positions s))) 0 in
  let new_position :=
    match LimitOrder.side order with
    | Buy => current_position + LimitOrder.quantity order
    | Sell => current_position - LimitOrder.quantity order
    end in
  if qlt (Cfg.max_position_size (Cfg.strategy (config s))) (Qabs new_position)
  then Err RiskManagement
  else if qlt (LimitOrder.quantity order) (Cfg.min_order_size (Cfg.execution (config s)))
  then Err RiskManagement
  else Ok tt.

(** [update_statistics]. *)
Definition update_statistics (execution_time : Q) (success : bool)
    (response : OrderResponse.t) (now : Z) (st : ExecutionStatistics)
    : ExecutionStatistics :=
  let total := S (total_orders st) in
  let successful := if success then S (successful_orders st) else successful_orders st in
  let failed := if success then failed_orders st else S (failed_orders st) in
  let volume := if success
                then total_volume st + OrderResponse.quantity response * OrderResponse.price response
                else total_volume st in
  let last := if success then Some now else last_execution st in
  let total_time := avg_execution_time_ms st * inject_Z (Z.of_nat (total - 1))
                    + execution_time in
  mkStats total successful failed (total_time / inject_Z (Z.of_nat total))
          volume (total_fees st)
          (inject_Z (Z.of_nat successful) / inject_Z (Z.of_nat total) * 100) last.

Definition record_statistics (success : bool) (response : OrderResponse.t) : M unit :=
  n <- now_index ;;
  modify (fun s => set_statistics s
    (update_statistics (elapsed_ms venues n) success response (clock venues n)
                       (statistics s))).

(** [place_order]. *)
Definition place_order (ex : Exchange) (order : LimitOrder.t) : M OrderResponse.t :=
  s <- get ;;
  if emergency_shutdown_flag s then fail Trading else
  match check_risk_limits s order with
  | Err e => fail e
  | Ok _ =>
      if negb (has_connector ex s) then fail Trading else
      n <- now_index ;;
      emit (PlaceLimitOrder ex order) ;;
      match place_reply venues n ex order with
      | Ok response =>
          modify (fun s => set_active_orders s
            (insert (OrderResponse.order_id response) (ex, response) (active_orders s))) ;;
          record_statistics true response ;;
          ret response
      | Err e =>
          record_statistics false OrderResponse.default ;;
          fail e
      end
  end.

(** The loop of [place_order_with_retry]: [attempt] is the current attempt
    number, [remaining] the attempts left, [last_error] the error kept. *)
Fixpoint retry_loop (ex : Exchange) (order : LimitOrder.t) (max_retries : nat)
    (attempt_no remaining : nat) (last_error : option ArbitrageError)
    : M OrderResponse.t :=
  match remaining with
  | O => match last_error with
         | Some e => fail e
         | None => panic   (* [last_error.unwrap()] on [None] *)
         end
  | S r =>
      res <- attempt (place_order ex order) ;;
      match res with
      | Ok response => ret response
      | Err e =>
          emit (AttemptFailed attempt_no e) ;;
          (if Nat.ltb attempt_no max_retries
           then emit (Sleep (1000 * attempt_no)) else ret tt) ;;
          retry_loop ex order max_retries (S attempt_no) r (Some e)
      end
  end.

(** [place_order_with_retry]: [for attempt in 1..=max_retries]. *)
Definition place_order_with_retry (ex : Exchange) (order : LimitOrder.t)
    : M OrderResponse.t :=
  s <- get ;;
  let max_retries := Cfg.max_retry_attempts (Cfg.execution (config s)) in
  retry_loop ex order max_retries 1 max_retries None.

(** [cancel_order]. *)
Definition cancel_order (ex : Exchange) (symbol order_id : string)
    : M OrderResponse.t :=
  s <- get ;;
  if negb (has_connector ex s) then fail Trading else
  n <- now_index ;;
  emit (CancelOrder ex symbol order_id) ;;
  match cancel_reply venues n ex symbol order_id with
  | Ok response =>
      modify (fun s => set_active_orders s (remove order_id (active_orders s))) ;;
      ret response
  | Err e => fail e
  end.

Fixpoint cancel_all (orders : list (string * (Exchange * OrderResponse.t))) : M unit :=
  match orders with
  | [] => ret tt
  | (order_id, (ex, response)) :: rest =>
      _ <- attempt (cancel_order ex (OrderResponse.symbol response) order_id) ;;
      cancel_all rest
  end.

Fixpoint disconnect_all (exs : list Exchange) : M unit :=
  match exs with
  | [] => ret tt
  | ex :: rest =>
      n <- now_index ;;
      emit (Disconnect ex) ;;
      (* an error of [disconnect] is logged and the sweep goes on *)
      let _ := disconnect_reply venues n ex in
      disconnect_all rest
  end.

(** [emergency_shutdown]. *)
Definition emergency_shutdown : M unit :=
  modify (fun s => set_shutdown s true) ;;
  s <- get ;;
  cancel_all (active_orders s) ;;
  s <- get ;;
  disconnect_all (connectors s) ;;
  ret tt.

End Coordinator.

End Live.

(** [market_data.entry(exchange).or_insert_with(HashMap::new)
    .insert(symbol, orderbook)] on the two-level cache. *)
Fixpoint entry_insert (exchange : Exchange) (symbol : string) (orderbook : OrderBook.t)
    (md : list (Exchange * list (string * OrderBook.t)))
    : list (Exchange * list (string * OrderBook.t)) :=
  match md with
  | [] => [(exchange, insert symbol orderbook [])]
  | (ex', d) :: r =>
      if Exchange_eqb exchange ex' then (ex', insert symbol orderbook d) :: r
      else (ex', d) :: entry_insert exchange symbol orderbook r
  end.

(** ** Health tracking of the live coordinator (src/trading/live_trading.rs) *)

Module LiveHealth.

(** [HashMap<Exchange, V>] as an association list. *)
Fixpoint lookup_ex {V} (k : Exchange) (m : list (Exchange * V)) : option V :=
  match m with
  | [] => None
  | (k', v) :: r => if Exchange_eqb k k' then Some v else lookup_ex k r
  end.

Fixpoint insert_ex {V} (k : Exchange) (v : V) (m : list (Exchange * V))
  : list (Exchange * V) :=
  match m with
  | [] => [(k, v)]
  | (k', v') :: r =>
      if Exchange_eqb k k' then (k, v) :: r else (k', v') :: insert_ex k v r
  end.

Record HealthStatus := mkHealth {
  is_healthy : bool;
  exchange_connections : list (Exchange * bool);
  last_heartbeat : Z;
  active_orders : nat;
  recent_errors : nat;
  uptime_seconds : nat
}.

(** [health.exchange_connections.values().all(|&connected| connected)]. *)
Definition all_connected (conns : list (Exchange * bool)) : bool :=
  forallb snd conns.

Definition set_connections (h : HealthStatus) (healthy : bool)
    (conns : list (Exchange * bool)) : HealthStatus :=
  mkHealth healthy conns (last_heartbeat h) (active_orders h) (recent_errors h)
           (uptime_seconds h).

(** The coordinator with its health record. *)
Record Executor := mkExecutor {
  state : Live.LiveState;
  health : HealthStatus
}.

(** [LiveTradingExecutor::validate_config]. *)
Definition validate_config (config : Cfg.ArbitrageConfig) : Live.result unit :=
  if Qle_bool (Cfg.max_position_size (Cfg.strategy config)) 0 then Live.Err Config
  else if Qle_bool (Cfg.min_order_size (Cfg.execution config)) 0 then Live.Err Config
  else Live.Ok tt.

(** [LiveTradingExecutor::new], at clock reading [now]. *)
Definition new (config : Cfg.ArbitrageConfig) (now : Z) : Live.result Executor :=
  match validate_config config with
  | Live.Err e => Live.Err e
  | Live.Ok _ =>
      Live.Ok (mkExecutor
        (Live.mkLive config [] [] [] Live.default_statistics false [])
        (mkHealth false [] now 0 0 0))
  end.

(** [is_connected]. *)
Definition is_connected (e : Executor) : bool := is_healthy (health e).

(** [get_connected_exchanges]. *)
Definition get_connected_exchanges (e : Executor) : list Exchange :=
  map fst (filter snd (exchange_connections (health e))).

(** [create_connector]: no connector can be built without API keys. *)
Definition create_connector (exchange : Exchange) : Live.result unit :=
  Live.Err Config.

Definition add_connector (exchange : Exchange) (s : Live.LiveState) : Live.LiveState :=
  if Live.has_connector exchange s then s
  else Live.mkLive (Live.config s) (Live.connectors s ++ [exchange]) (Live.active_orders s)
                   (Live.positions s) (Live.statistics s)
                   (Live.emergency_shutdown_flag s) (Live.events s).

(** The loop of [connect_to_exchanges]; [connect] is what a created
    connector's [connect] answers. *)
Fixpoint connect_loop (connect : Exchange -> Live.result unit) (exchanges : list Exchange)
    (e : Executor) : Live.result unit * Executor :=
  match exchanges with
  | [] =>
      let h := health e in
      (Live.Ok tt, mkExecutor (state e)
         (set_connections h (all_connected (exchange_connections h)) (exchange_connections h)))
  | exchange :: rest =>
      let h := health e in
      let failed := mkExecutor (state e)
        (set_connections h (is_healthy h) (insert_ex exchange false (exchange_connections h))) in
      match create_connector exchange with
      | Live.Ok _ =>
          match connect exchange with
          | Live.Ok _ =>
              connect_loop connect rest
                (mkExecutor (add_connector exchange (state e))
                   (set_connections h (is_healthy h)
                      (insert_ex exchange true (exchange_connections h))))
          | Live.Err err => (Live.Err err, failed)
          end
      | Live.Err err => (Live.Err err, failed)
      end
  end.

(** [connect_to_exchanges]. *)
Definition connect_to_exchanges (connect : Exchange -> Live.result unit) (e : Executor)
    : Live.result unit * Executor :=
  connect_loop connect [Binance; Bybit] e.

(** [check_connectivity]; [connected] is what each connector's
    [is_connected] answers, [now] the clock. *)
Definition check_connectivity (connected : Exchange -> bool) (now : Z) (e : Executor)
    : Live.result unit * Executor :=
  let h := health e in
  let conns := fold_left (fun c exchange => insert_ex exchange (connected exchange) c)
                 (Live.connectors (state e)) (exchange_connections h) in
  let healthy := all_connected conns in
  let h' := mkHealth healthy conns now (active_orders h) (recent_errors h)
                     (uptime_seconds h) in
  (if healthy then Live.Ok tt else Live.Err Connection, mkExecutor (state e) h').

(** [handle_connection_error]; [connect] is what the connector's
    [connect] answers. *)
Definition handle_connection_error (connect : Exchange -> Live.result unit)
    (exchange : Exchange) (e : Executor) : Live.result unit * Executor :=
  let h := health e in
  let h1 := mkHealth false (insert_ex exchange false (exchange_connections h))
                     (last_heartbeat h) (active_orders h) (S (recent_errors h))
                     (uptime_seconds h) in
  if Live.has_connector exchange (state e) then
    match connect exchange with
    | Live.Ok _ =>
        let conns := insert_ex exchange true (exchange_connections h1) in
        (Live.Ok tt, mkExecutor (state e) (set_connections h1 (all_connected conns) conns))
    | Live.Err err => (Live.Err err, mkExecutor (state e) h1)
    end
  else (Live.Ok tt, mkExecutor (state e) h1).

End LiveHealth.

(** The bookkeeping of [ExecutionStatistics]: every order is counted as a
    success or a failure, and the success rate is the percentage of
    successes. *)
Definition stats_consistent (st : Live.ExecutionStatistics) : Prop :=
  Live.total_orders st = (Live.successful_orders st + Live.failed_orders st)%nat /\
  Live.success_rate st * inject_Z (Z.of_nat (Live.total_orders st)) ==
    inject_Z (Z.of_nat (Live.successful_orders st)) * 100.

(** Whether an event is a call to a venue connector. *)
Definition is_venue_call (ev : Live.Event) : bool :=
  match ev with
  | Live.PlaceLimitOrder _ _ | Live.CancelOrder _ _ _ | Live.Disconnect _ => true
  | Live.AttemptFailed _ _ | Live.Sleep _ => false
  end.

(** ** The execution simulator (src/trading/dry_run.rs) *)

Module DryRun.

Record Portfolio := mkPortfolio {
  positions : list (string * Q);
  balances : list (string * Q);
  initial_balances : list (string * Q)
}.

(** [Portfolio::new]. *)
Definition Portfolio_new (initial_balances : list (string * Q)) : Portfolio :=
  mkPortfolio [] initial_balances initial_balances.

Definition get_position (p : Portfolio) (symbol : string) : Q :=
  unwrap_or (lookup symbol (positions p)) 0.

Definition get_balance (p : Portfolio) (currency : string) : Q :=
  unwrap_or (lookup currency (balances p)) 0.

Definition update_position (p : Portfolio) (symbol : string) (delta : Q) : Portfolio :=
  mkPortfolio (insert symbol (get_position p symbol + delta) (positions p))
              (balances p) (initial_balances p).

Definition update_balance (p : Portfolio) (currency : string) (delta : Q) : Portfolio :=
  mkPortfolio (positions p)
              (insert currency (get_balance p currency + delta) (balances p))
              (initial_balances p).

(** [Portfolio::calculate_pnl]: position x current price for the symbols
    with a price, plus the change of the USDT and USD balances. *)
Definition calculate_pnl (p : Portfolio) (current_prices : list (string * Q)) : Q :=
  let total_pnl :=
    fold_left (fun acc sp =>
      match lookup (fst sp) current_prices with
      | Some price => acc + snd sp * price
      | None => acc
      end) (positions p) 0 in
  fold_left (fun acc cb =>
    let initial := unwrap_or (lookup (fst cb) (initial_balances p)) 0 in
    if (String.eqb (fst cb) "USDT" || String.eqb (fst cb) "USD")%bool
    then acc + (snd cb - initial) else acc) (balances p) total_pnl.

Record PerformanceMetrics := mkMetrics {
  total_orders : nat;
  total_volume : Q;
  average_execution_time : Q;
  success_rate : Q;
  total_fees : Q;
  max_drawdown : Q
}.

Definition default_metrics : PerformanceMetrics := mkMetrics 0 0 0 0 0 0.

(** The simulator's own [ExecutionConfig]. *)
Record ExecutionConfig := mkExecConfig {
  enable_fees : bool;
  maker_fee : Q;
  taker_fee : Q;
  simulate_delays : bool;
  simulate_market_impact : bool;
  market_impact_factor : Q;
  allow_partial_fills : bool;
  partial_fill_probability : Q;
  rejection_probability : Q;
  min_fill_ratio : Q
}.

(** [impl Default for ExecutionConfig]; [DryRunExecutor::new] always uses
    it and no method changes it. *)
Definition default_exec_config : ExecutionConfig :=
  mkExecConfig true (1#1000) (1#1000) false false (1#10000) false 0 0 (1#10).

Record DryRunExecutor := mkExecutor {
  config : Cfg.ArbitrageConfig;
  exec_config : ExecutionConfig;
  portfolio : Portfolio;
  market_data : list (Exchange * list (string * OrderBook.t));
  execution_history : list OrderResponse.t;
  metrics : PerformanceMetrics;
  current_prices : list (string * Q)
}.

Definition default_initial_balances : list (string * Q) :=
  [("USDT"%string, 100000); ("BTC"%string, 0); ("ETH"%string, 0)].

(** [DryRunExecutor::new]. *)
Definition new (config : Cfg.ArbitrageConfig) : DryRunExecutor :=
  mkExecutor config default_exec_config (Portfolio_new default_initial_balances)
             [] [] default_metrics [].

(** The values the random generator, the clock and the id generator yield
    during one [execute_order]. *)
Record Draws := mkDraws {
  reject_draw : Q;     (** [rng.gen::<f64>()] of [should_reject_order] *)
  slippage_draw : Q;   (** [rng.gen_range(0.0..slippage)] *)
  partial_draw : Q;    (** [rng.gen::<f64>()] of [calculate_fill_quantity] *)
  fill_draw : Q;       (** [rng.gen_range(min_fill..=order.quantity)] *)
  elapsed : Q;
  new_order_id : string;
  now : Z
}.

Definition should_reject_order (ec : ExecutionConfig) (d : Draws) : bool :=
  if Qle_bool (rejection_probability ec) 0 then false
  else qlt (reject_draw d) (rejection_probability ec).

(** The first exchange's book for [symbol], as the [for ... break] loop
    finds it. *)
Fixpoint first_book (symbol : string) (md : list (Exchange * list (string * OrderBook.t)))
  : option OrderBook.t :=
  match md with
  | [] => None
  | (_, data) :: r =>
      match lookup symbol data with
      | Some b => Some b
      | None => first_book symbol r
      end
  end.

Definition calculate_execution_price (ex : DryRunExecutor) (order : LimitOrder.t)
    (d : Draws) : Q :=
  let p0 := LimitOrder.price order in
  let slippage := Cfg.slippage_tolerance (Cfg.execution (config ex)) in
  let p1 := if qlt 0 slippage then
              match LimitOrder.side order with
              | Buy => p0 * (1 + slippage_draw d)
              | Sell => p0 * (1 - slippage_draw d)
              end
            else p0 in
  let p2 := if simulate_market_impact (exec_config ex) then
              let impact := LimitOrder.quantity order * market_impact_factor (exec_config ex) in
              match LimitOrder.side order with
              | Buy => p1 * (1 + impact)
              | Sell => p1 * (1 - impact)
              end
            else p1 in
  match first_book (LimitOrder.symbol order) (market_data ex) with
  | Some book =>
      match LimitOrder.side order with
      | Buy => match OrderBook.best_ask book with Some ask => Qmax p2 ask | None => p2 end
      | Sell => match OrderBook.best_bid book with Some bid => Qmin p2 bid | None => p2 end
      end
  | None => p2
  end.

Definition calculate_fill_quantity (ec : ExecutionConfig) (order : LimitOrder.t)
    (d : Draws) : Q :=
  if negb (allow_partial_fills ec) then LimitOrder.quantity order
  else if qlt (partial_draw d) (partial_fill_probability ec) then fill_draw d
  else LimitOrder.quantity order.

Definition calculate_fees (ec : ExecutionConfig) (order : LimitOrder.t)
    (fill_quantity execution_price : Q) : Q :=
  let notional_value := fill_quantity * execution_price in
  let fee_rate := if TimeInForce_eqb (LimitOrder.time_in_force order) GTX
                  then maker_fee ec else taker_fee ec in
  notional_value * fee_rate.

Definition update_portfolio (p : Portfolio) (order : LimitOrder.t)
    (fill_quantity execution_price fees : Q) : Portfolio :=
  let notional_value := fill_quantity * execution_price in
  match LimitOrder.side order with
  | Buy => update_balance (update_position p (LimitOrder.symbol order) fill_quantity)
                          "USDT" (- (notional_value + fees))
  | Sell => update_balance (update_position p (LimitOrder.symbol order) (- fill_quantity))
                           "USDT" (notional_value - fees)
  end.

(** [update_metrics].  The average execution time is kept as a rational:
    the [Duration] arithmetic of the source, whose [as u32] casts wrap and
    whose division panics when [total_orders] reaches a multiple of 2^32,
    is not modelled: on an executor with such a count the source panics
    where this model returns. *)
Definition update_metrics (m : PerformanceMetrics) (execution_time : Q)
    (r : OrderResponse.t) (fees : Q) : PerformanceMetrics :=
  let n := S (total_orders m) in
  let filled_orders := if qlt 0 (OrderResponse.filled_quantity r) then 1 else 0 in
  mkMetrics n
    (total_volume m + OrderResponse.filled_quantity r * OrderResponse.price r)
    ((average_execution_time m * inject_Z (Z.of_nat (n - 1)) + execution_time)
       / inject_Z (Z.of_nat n))
    ((success_rate m * inject_Z (Z.of_nat (n - 1)) + filled_orders) / inject_Z (Z.of_nat n))
    (total_fees m + fees) (max_drawdown m).

(** [DryRunExecutor::execute_order] (the delay sleep has no effect on the
    state). *)
Definition execute_order (d : Draws) (order : LimitOrder.t) (ex : DryRunExecutor)
    : Live.result OrderResponse.t * DryRunExecutor :=
  if should_reject_order (exec_config ex) d then (Live.Err Trading, ex) else
  let execution_price := calculate_execution_price ex order d in
  let fill_quantity := calculate_fill_quantity (exec_config ex) order d in
  let fees := if enable_fees (exec_config ex)
              then calculate_fees (exec_config ex) order fill_quantity execution_price
              else 0 in
  let portfolio' := update_portfolio (portfolio ex) order fill_quantity execution_price fees in
  let response :=
    OrderResponse.mk (new_order_id d) (LimitOrder.client_order_id order)
      (LimitOrder.symbol order) (LimitOrder.side order) (LimitOrder.quantity order)
      (LimitOrder.price order)
      (if Qeq_bool fill_quantity (LimitOrder.quantity order) then Filled
       else if qlt 0 fill_quantity then PartiallyFilled else New)
      fill_quantity
      (if qlt 0 fill_quantity then Some execution_price else None)
      (now d) in
  (Live.Ok response,
   mkExecutor (config ex) (exec_config ex) portfolio' (market_data ex)
              (execution_history ex ++ [response])
              (update_metrics (metrics ex) (elapsed d) response fees)
              (current_prices ex)).

(** [DryRunExecutor::get_results]: (total trades, total PnL). *)
Definition get_results (ex : DryRunExecutor) : nat * Q :=
  (length (execution_history ex), calculate_pnl (portfolio ex) (current_prices ex)).

(** [DryRunExecutor::reset] (always [Ok]): the portfolio back to its
    initial balances, history, metrics, market data and prices cleared. *)
Definition reset (ex : DryRunExecutor) : DryRunExecutor :=
  mkExecutor (config ex) (exec_config ex)
             (Portfolio_new (initial_balances (portfolio ex)))
             [] [] default_metrics [].

(** [DryRunExecutor::update_market_data] (always [Ok]). *)
Definition update_market_data (exchange : Exchange) (orderbook : OrderBook.t)
    (ex : DryRunExecutor) : DryRunExecutor :=
  let symbol := OrderBook.symbol orderbook in
  mkExecutor (config ex) (exec_config ex) (portfolio ex)
    (entry_insert exchange symbol orderbook (market_data ex))
    (execution_history ex) (metrics ex)
    (match OrderBook.mid_price orderbook with
     | Some mid_price => insert symbol mid_price (current_prices ex)
     | None => current_prices ex
     end).

(** The public mutators of the executor, as a client calls them. *)
Inductive Op :=
  | ExecuteOrder (d : Draws) (order : LimitOrder.t)
  | UpdateMarketData (exchange : Exchange) (orderbook : OrderBook.t)
  | Reset.

Definition step (ex : DryRunExecutor) (op : Op) : DryRunExecutor :=
  match op with
  | ExecuteOrder d order => snd (execute_order d order ex)
  | UpdateMarketData exchange orderbook => update_market_data exchange orderbook ex
  | Reset => reset ex
  end.

Definition run_ops (ex : DryRunExecutor) (ops : list Op) : DryRunExecutor :=
  fold_left step ops ex.

(** Sum of [g] over the execution history. *)
Definition history_sum (g : OrderResponse.t -> Q) (h : list OrderResponse.t) : Q :=
  fold_left (fun acc r => acc + g r) h 0.

(** What the metrics should say about the history: one order per entry,
    and the volume of the entries summed in history order. *)
Definition metrics_consistent (ex : DryRunExecutor) : Prop :=
  total_orders (metrics ex) = length (execution_history ex) /\
  total_volume (metrics ex) ==
    history_sum (fun r => OrderResponse.filled_quantity r * OrderResponse.price r)
                (execution_history ex).

End DryRun.

(** ** Strategy statistics (src/strategy/arbitrage.rs, futures_arbitrage.rs) *)

Module Stats.

(** An f64 quotient: finite, an infinity, or NaN (IEEE division by zero). *)
Inductive F64 := Fin (q : Q) | PosInf | NegInf | NaN.

Definition q_of_nat (n : nat) : Q := inject_Z (Z.of_nat n).

Definition f64_div (a b : Q) : F64 :=
  if Qeq_bool b 0 then
    (if qlt 0 a then PosInf else if qlt a 0 then NegInf else NaN)
  else Fin (a / b).

Definition f64_mul (x : F64) (c : Q) : F64 :=
  match x with
  | Fin a => Fin (a * c)
  | PosInf => if qlt 0 c then PosInf else if qlt c 0 then NegInf else NaN
  | NegInf => if qlt 0 c then NegInf else if qlt c 0 then PosInf else NaN
  | NaN => NaN
  end.

(** [(executed as f64 / detected as f64) * 100.0], as both strategies
    write it. *)
Definition rate (executed detected : nat) : F64 :=
  f64_mul (f64_div (q_of_nat executed) (q_of_nat detected)) 100.

Record StrategyStatistics := mkStrategyStatistics {
  opportunities_detected : nat;
  opportunities_executed : nat;
  total_pnl : Q;
  success_rate : F64;
  avg_spread_bps : Q;
  total_volume : Q;
  uptime_seconds : nat;
  last_execution : option Z
}.

Definition default_strategy_statistics : StrategyStatistics :=
  mkStrategyStatistics 0 0 0 (Fin 0) 0 0 0 None.

(** [ArbitrageStrategy::update_success_statistics]. *)
Definition update_success_statistics (o : Spot.ArbitrageOpportunity) (now : Z)
    (s : StrategyStatistics) : StrategyStatistics :=
  let executed := S (opportunities_executed s) in
  let total_spread := avg_spread_bps s * q_of_nat (executed - 1) + Spot.spread_bps o in
  mkStrategyStatistics (opportunities_detected s) executed
    (total_pnl s + Spot.expected_profit o)
    (rate executed (opportunities_detected s))
    (total_spread / q_of_nat executed)
    (total_volume s + Spot.quantity o * Spot.buy_price o)
    (uptime_seconds s) (Some now).

Definition add_detected (n : nat) (s : StrategyStatistics) : StrategyStatistics :=
  mkStrategyStatistics (opportunities_detected s + n) (opportunities_executed s)
    (total_pnl s) (success_rate s) (avg_spread_bps s) (total_volume s)
    (uptime_seconds s) (last_execution s).

(** [ArbitrageStrategy::update_statistics]. *)
Definition update_statistics (uptime : nat) (s : StrategyStatistics) : StrategyStatistics :=
  mkStrategyStatistics (opportunities_detected s) (opportunities_executed s)
    (total_pnl s) (success_rate s) (avg_spread_bps s) (total_volume s)
    uptime (last_execution s).

(** One iteration of [run_with_executor]: [detect_opportunities] adds the
    number found to the detected count, then each opportunity is executed;
    the boolean says whether both legs returned [Ok] (only then is
    [update_success_statistics] called; [update_error_statistics] changes
    nothing). *)
Definition run_iteration (now : Z) (uptime : nat)
    (batch : list (Spot.ArbitrageOpportunity * bool)) (s : StrategyStatistics)
    : StrategyStatistics :=
  let s1 := add_detected (length batch) s in
  let s2 := fold_left (fun (acc : StrategyStatistics)
                            (ob : Spot.ArbitrageOpportunity * bool) =>
              if snd ob then update_success_statistics (fst ob) now acc else acc)
              batch s1 in
  update_statistics uptime s2.

Fixpoint run_iterations
    (its : list (Z * nat * list (Spot.ArbitrageOpportunity * bool)))
    (s : StrategyStatistics) : StrategyStatistics :=
  match its with
  | [] => s
  | (now, uptime, batch) :: r => run_iterations r (run_iteration now uptime batch s)
  end.

Record FuturesArbitrageStats := mkFuturesStats {
  f_opportunities_detected : nat;
  f_opportunities_executed : nat;
  f_total_pnl : Q;
  f_total_maker_rebates : Q;
  f_total_taker_fees : Q;
  f_success_rate : F64;
  f_avg_spread_bps : Q;
  f_total_volume : Q;
  f_uptime_seconds : nat;
  f_last_execution : option Z
}.

Definition default_futures_stats : FuturesArbitrageStats :=
  mkFuturesStats 0 0 0 0 0 (Fin 0) 0 0 0 None.

(** [FuturesArbitrageStrategy::update_execution_statistics], run by the
    public [execute_opportunity] once both legs are placed. *)
Definition update_execution_statistics (o : Futures.FuturesArbitrageOpportunity)
    (now : Z) (s : FuturesArbitrageStats) : FuturesArbitrageStats :=
  let executed := S (f_opportunities_executed s) in
  mkFuturesStats (f_opportunities_detected s) executed
    (f_total_pnl s + Futures.expected_profit o)
    (f_total_maker_rebates s
       + Futures.maker_price o * Futures.quantity o * Qabs (Futures.maker_fee o))
    (f_total_taker_fees s
       + Futures.taker_price o * Futures.quantity o * Futures.taker_fee o)
    (rate executed (f_opportunities_detected s))
    (if Nat.ltb 1 executed
     then (f_avg_spread_bps s * q_of_nat (executed - 1) + Futures.spread_bps o)
            / q_of_nat executed
     else Futures.spread_bps o)
    (f_total_volume s + Futures.quantity o * Futures.maker_price o)
    (f_uptime_seconds s) (Some now).

(** The statistics of the spot loop: never more executed than detected, and
    a finite success rate. *)
Definition spot_inv (s : StrategyStatistics) : Prop :=
  (opportunities_executed s <= opportunities_detected s)%nat /\
  exists r, success_rate s = Fin r.

End Stats.

(** ** The futures strategy's state (src/strategy/futures_arbitrage.rs) *)

Module FuturesStrategy.

Inductive FuturesStrategyState := Stopped | Running | Paused | Error.

(** The connector types of src/connectors/futures.rs that
    [execute_opportunity] builds. *)
Inductive PositionSide := Long | Short | Both.

Inductive FuturesOrderType :=
  | Market | Limit | StopMarket | StopLimit | TakeProfitMarket | TakeProfitLimit.

Inductive FuturesTimeInForce := GTC | IOC | FOK | GTX.

Record FuturesOrder := mkFuturesOrder {
  symbol : string;
  side : OrderSide;
  position_side : option PositionSide;
  order_type : FuturesOrderType;
  quantity : Q;
  price : option Q;
  stop_price : option Q;
  time_in_force : FuturesTimeInForce;
  reduce_only : bool;
  close_position : bool;
  client_order_id : option string
}.

(** Decimal digits of a non-negative integer ([fuel] bounds their number). *)
Fixpoint digits (fuel : nat) (n : Z) (acc : string) : string :=
  match fuel with
  | O => acc
  | S f =>
      let acc' := String (ascii_of_nat (48 + Z.to_nat (n mod 10))) acc in
      if Z.ltb n 10 then acc' else digits f (n / 10) acc'
  end.

(** [i64]'s [Display]. *)
Definition string_of_Z (z : Z) : string :=
  if Z.ltb z 0 then String "-" (digits 20 (- z) "") else digits 20 z "".

Record FuturesArbitrageStrategy := mkStrategy {
  config : Cfg.ArbitrageConfig;
  state : FuturesStrategyState;
  statistics : Stats.FuturesArbitrageStats;
  opportunities : list Futures.FuturesArbitrageOpportunity;
  market_data : Futures.MarketData;
  active_symbols : list string
}.

(** [FuturesArbitrageStrategy::new]. *)
Definition new (config : Cfg.ArbitrageConfig) (symbols : list string)
    : FuturesArbitrageStrategy :=
  mkStrategy config Stopped Stats.default_futures_stats [] [] symbols.

Definition set_state (s : FuturesArbitrageStrategy) st : FuturesArbitrageStrategy :=
  mkStrategy (config s) st (statistics s) (opportunities s) (market_data s)
             (active_symbols s).

Definition start (s : FuturesArbitrageStrategy) : FuturesArbitrageStrategy :=
  set_state s Running.

Definition stop (s : FuturesArbitrageStrategy) : FuturesArbitrageStrategy :=
  set_state s Stopped.

(** [is_running]: whether the state is [Running]. *)
Definition is_running (s : FuturesArbitrageStrategy) : bool :=
  match state s with Running => true | _ => false end.

(** [stats.opportunities_detected += opportunities.len() as u64]. *)
Definition record_detected (n : nat) (st : Stats.FuturesArbitrageStats)
    : Stats.FuturesArbitrageStats :=
  Stats.mkFuturesStats (Stats.f_opportunities_detected st + n)
    (Stats.f_opportunities_executed st) (Stats.f_total_pnl st)
    (Stats.f_total_maker_rebates st) (Stats.f_total_taker_fees st)
    (Stats.f_success_rate st) (Stats.f_avg_spread_bps st) (Stats.f_total_volume st)
    (Stats.f_uptime_seconds st) (Stats.f_last_execution st).

(** [detect_opportunities] with its two writes: the detected counter and
    the stored opportunities. *)
Definition detect_opportunities (now : Z) (s : FuturesArbitrageStrategy)
    : list Futures.FuturesArbitrageOpportunity * FuturesArbitrageStrategy :=
  let opps := Futures.detect_opportunities (config s) now (active_symbols s) (market_data s) in
  (opps, mkStrategy (config s) (state s)
           (record_detected (length opps) (statistics s)) opps (market_data s)
           (active_symbols s)).

(** [update_orderbook] (always [Ok]). *)
Definition update_orderbook (exchange : Exchange) (orderbook : OrderBook.t) (now : Z)
    (s : FuturesArbitrageStrategy) : FuturesArbitrageStrategy :=
  let s1 := mkStrategy (config s) (state s) (statistics s) (opportunities s)
              (entry_insert exchange (OrderBook.symbol orderbook) orderbook (market_data s))
              (active_symbols s) in
  if is_running s1 then snd (detect_opportunities now s1) else s1.

(** [execute_opportunity]: [bybit_place] and [binance_place] are what the
    two connectors' [place_order] answer; [maker_ms] and [taker_ms] are the
    two [timestamp_millis()] reads of the client order ids, [now] the clock
    read by [update_execution_statistics].
    Returns the result, the orders sent (venue, order) in order, and the
    strategy. *)
Definition execute_opportunity (bybit_place binance_place : FuturesOrder -> Live.result unit)
    (maker_ms taker_ms now : Z) (o : Futures.FuturesArbitrageOpportunity)
    (s : FuturesArbitrageStrategy)
    : Live.result unit * list (Exchange * FuturesOrder) * FuturesArbitrageStrategy :=
  let maker_order :=
    mkFuturesOrder (Futures.symbol o) (Futures.maker_side o) (Some Both) Limit
      (Futures.quantity o) (Some (Futures.maker_price o)) None GTX false false
      (Some ("maker_" ++ Futures.symbol o ++ "_" ++ string_of_Z maker_ms)%string) in
  match bybit_place maker_order with
  | Live.Ok _ =>
      let taker_order :=
        mkFuturesOrder (Futures.symbol o) (Futures.taker_side o) (Some Both) Market
          (Futures.quantity o) None None IOC false false
          (Some ("taker_" ++ Futures.symbol o ++ "_" ++ string_of_Z taker_ms)%string) in
      match binance_place taker_order with
      | Live.Ok _ =>
          (Live.Ok tt, [(Bybit, maker_order); (Binance, taker_order)],
           mkStrategy (config s) (state s)
             (Stats.update_execution_statistics o now (statistics s))
             (opportunities s) (market_data s) (active_symbols s))
      | Live.Err e => (Live.Err e, [(Bybit, maker_order); (Binance, taker_order)], s)
      end
  | Live.Err e => (Live.Err e, [(Bybit, maker_order)], s)
  end.

End FuturesStrategy.

(** A book whose best bid is not above its best ask. *)
Definition uncrossed (b : OrderBook.t) : Prop :=
  match OrderBook.best_bid b, OrderBook.best_ask b with
  | Some bid, Some ask => bid <= ask
  | _, _ => True
  end.

(** ** The spot strategy's execution path (src/strategy/arbitrage.rs) *)

Module SpotStrategy.

(** [trait StrategyExecutor]: [execute_order] on an executor state [E];
    the outcome also records a panic of the executor. *)
Class StrategyExecutor (E : Type) :=
  execute_order : Exchange -> LimitOrder.t -> E -> Live.outcome OrderResponse.t * E.

(** The dry-run executor together with the random draws its
    [execute_order] consumes, one [Draws] per call. *)
Record Simulated := mkSim {
  draws : nat -> DryRun.Draws;
  calls : nat;
  dry : DryRun.DryRunExecutor
}.

(** [impl StrategyExecutor for DryRunExecutor]: the exchange is ignored. *)
#[global] Instance dry_run_executor : StrategyExecutor Simulated :=
  fun _exchange order sim =>
    let (r, ex') := DryRun.execute_order (draws sim (calls sim)) order (dry sim) in
    (Live.Done r, mkSim (draws sim) (S (calls sim)) ex').

(** [impl StrategyExecutor for LiveTradingExecutor]: [place_order]. *)
Definition live_executor (venues : Live.Venues) : StrategyExecutor Live.LiveState :=
  fun exchange order s => Live.place_order venues exchange order s.

(** The two legs built by [execute_opportunity]; [uuid] is the
    [Uuid::new_v4()] of the client order id. *)
Definition buy_order (o : Spot.ArbitrageOpportunity) (uuid : string) : LimitOrder.t :=
  LimitOrder.mk (Spot.symbol o) Buy (Spot.quantity o) (Spot.buy_price o) GTC
    (Some (String.append "arb_buy_"%string uuid)).

Definition sell_order (o : Spot.ArbitrageOpportunity) (uuid : string) : LimitOrder.t :=
  LimitOrder.mk (Spot.symbol o) Sell (Spot.quantity o) (Spot.sell_price o) GTC
    (Some (String.append "arb_sell_"%string uuid)).

(** [ArbitrageStrategy::execute_opportunity]: the buy leg, then the sell
    leg, then the match on the two results; [now] is the clock read by
    [update_success_statistics]. *)
Definition execute_opportunity {E} `{StrategyExecutor E}
    (buy_uuid sell_uuid : string) (now : Z) (o : Spot.ArbitrageOpportunity)
    (ex : E) (stats : Stats.StrategyStatistics)
    : Live.outcome unit * E * Stats.StrategyStatistics :=
  match execute_order (Spot.buy_exchange o) (buy_order o buy_uuid) ex with
  | (Live.Panic, ex1) => (Live.Panic, ex1, stats)
  | (Live.Done buy_result, ex1) =>
      match execute_order (Spot.sell_exchange o) (sell_order o sell_uuid) ex1 with
      | (Live.Panic, ex2) => (Live.Panic, ex2, stats)
      | (Live.Done sell_result, ex2) =>
          match buy_result, sell_result with
          | Live.Ok _, Live.Ok _ =>
              (Live.Done (Live.Ok tt), ex2, Stats.update_success_statistics o now stats)
          | Live.Err buy_error, Live.Ok _ => (Live.Done (Live.Err buy_error), ex2, stats)
          | Live.Ok _, Live.Err sell_error => (Live.Done (Live.Err sell_error), ex2, stats)
          | Live.Err buy_error, Live.Err _ => (Live.Done (Live.Err buy_error), ex2, stats)
          end
      end
  end.

(** [update_market_data]: the base price drawn from [rand::random::<f64>()]
    (a draw [r] in [0, 1)), and the two mock books built from it. *)
Definition mock_base_price (r : Q) : Q := 50000 + (r - (1#2)) * 1000.

Definition mock_binance_book (base_price : Q) (ts : Z) : OrderBook.t :=
  OrderBook.set_timestamp
    (OrderBook.update_ask
       (OrderBook.update_bid (OrderBook.new "BTCUSDT"%string Binance) (base_price - 10) 1)
       (base_price + 5) 1) ts.

Definition mock_bybit_book (base_price : Q) (ts : Z) : OrderBook.t :=
  OrderBook.set_timestamp
    (OrderBook.update_ask
       (OrderBook.update_bid (OrderBook.new "BTCUSDT"%string Bybit) (base_price + 15) 1)
       (base_price + 25) 1) ts.

End SpotStrategy.

(** Reading aids for the detector properties. *)

(** The two books as stored for the two venues when venue [exA] holds
    [bookA] and the other venue holds [bookB]: (Binance book, Bybit book). *)
Definition stored_pair (exA : Exchange) (bookA bookB : OrderBook.t)
  : OrderBook.t * OrderBook.t :=
  match exA with
  | Binance => (bookA, bookB)
  | Bybit => (bookB, bookA)
  end.

Definition other_exchange (ex : Exchange) : Exchange :=
  match ex with Binance => Bybit | Bybit => Binance end.

(** Top-of-book quantity on the side an order of side [s] trades against:
    a sell hits the bid, a buy lifts the ask. *)
Definition top_quantity (b : OrderBook.t) (s : OrderSide) : option Q :=
  match s with
  | Sell => OrderBook.best_bid_quantity b
  | Buy => OrderBook.best_ask_quantity b
  end.

(** The price spread an opportunity captures: its sell price minus its buy
    price. *)
Definition futures_spread (o : Futures.FuturesArbitrageOpportunity) : Q :=
  match Futures.maker_side o with
  | Sell => Futures.maker_price o - Futures.taker_price o
  | Buy => Futures.taker_price o - Futures.maker_price o
  end.

(** The net position an order would leave for its symbol: the current
    position (0 when none is tracked), plus the quantity for a buy, minus it
    for a sell. *)
Definition net_position_after (s : Live.LiveState) (order : LimitOrder.t) : Q :=
  let current :=
    unwrap_or (option_map Live.size (lookup (LimitOrder.symbol order) (Live.positions s))) 0 in
  match LimitOrder.side order with
  | Buy => current + LimitOrder.quantity order
  | Sell => current - LimitOrder.quantity order
  end.

(** The venue cancel calls of an emergency sweep over [orders]: one per
    order whose venue has a connector. *)
Definition cancel_calls (s : Live.LiveState)
    (orders : list (string * (Exchange * OrderResponse.t))) : list Live.Event :=
  flat_map (fun o =>
    let '(order_id, (ex, response)) := o in
    if Live.has_connector ex s
    then [Live.CancelOrder ex (OrderResponse.symbol response) order_id] else [])
    orders.

(** The events [place_order_with_retry] leaves for [m] failed attempts
    numbered from [k], each failing with [e], out of [max_retries]: the
    [warn!] of the attempt, then a sleep of [1000 x attempt] ms unless it is
    the last attempt. *)
Definition retry_log (e : ArbitrageError) (max_retries k m : nat) : list Live.Event :=
  flat_map (fun j => Live.AttemptFailed j e ::
              (if Nat.ltb j max_retries then [Live.Sleep (1000 * j)] else []))
           (seq k m).

(** What every emitted futures opportunity looks like, scenario by
    scenario. *)
Definition futures_emitted (cfg : Cfg.ArbitrageConfig) (sym : string)
    (mb tb : OrderBook.t) (o : Futures.FuturesArbitrageOpportunity) : Prop :=
  exists qm qt,
    Futures.symbol o = sym /\
    top_quantity mb (Futures.maker_side o) = Some qm /\
    top_quantity tb (Futures.taker_side o) = Some qt /\
    Futures.taker_side o = match Futures.maker_side o with
                           | Sell => Buy | Buy => Sell end /\
    Futures.quantity o = Qmin (Qmin qm qt) (Cfg.max_position_size (Cfg.strategy cfg)) /\
    Cfg.min_order_size (Cfg.execution cfg) < Futures.quantity o /\
    0 < futures_spread o /\
    Futures.maker_fee o = Futures.bybit_maker_fee /\
    Futures.taker_fee o = Futures.binance_taker_fee /\
    Futures.expected_profit o =
      futures_spread o * Futures.quantity o
      + Futures.maker_price o * Futures.quantity o * Qabs (Futures.maker_fee o)
      - Futures.taker_price o * Futures.quantity o * Futures.taker_fee o /\
    0 < Futures.expected_profit o.

(** ** Sample inputs *)

(** A configuration with a 5 bps threshold; otherwise the defaults. *)
Definition sample_cfg : Cfg.ArbitrageConfig :=
  Cfg.mkConfig (Cfg.mkStrategy "BTCUSDT" 5 1) (Cfg.mkExecution 5000 (1#1000) (1#1000) true 3).

(** The defaults with [max_retry_attempts = 0]. *)
Definition no_retry_cfg : Cfg.ArbitrageConfig :=
  Cfg.mkConfig (Cfg.mkStrategy "BTCUSDT" 10 1) (Cfg.mkExecution 5000 (1#1000) (1#1000) true 0).

(** A configuration that nothing on the dry-run path validates: a negative
    minimum order size and a max position size of 0. *)
Definition unvalidated_cfg : Cfg.ArbitrageConfig :=
  Cfg.mkConfig (Cfg.mkStrategy "BTCUSDT" 5 0) (Cfg.mkExecution 5000 (1#1000) (-1) true 3).

Definition bybit_book : OrderBook.t :=
  OrderBook.mk "BTCUSDT" Bybit [(50100, 1)] [(50200, 1)] 0.

Definition binance_book : OrderBook.t :=
  OrderBook.mk "BTCUSDT" Binance [(49900, 1)] [(50000, 1)] 0.

Definition sample_market_data : Futures.MarketData :=
  [(Binance, [("BTCUSDT"%string, binance_book)]); (Bybit, [("BTCUSDT"%string, bybit_book)])].

Definition sample_buy : LimitOrder.t := LimitOrder.mk "BTCUSDT" Buy 1 50000 GTC None.

Definition sample_sell : LimitOrder.t := LimitOrder.mk "BTCUSDT" Sell 1 50001 GTC None.

Definition small_buy : LimitOrder.t := LimitOrder.mk "BTCUSDT" Buy (1#2) 50000 GTC None.

Definition sample_response (id : string) : OrderResponse.t :=
  OrderResponse.mk id None "BTCUSDT" Buy 1 50000 New 0 None 0.

(** Binance accepts cancels, Bybit refuses them; every placement fails. *)
Definition sample_venues : Live.Venues :=
  Live.mkVenues (fun _ _ _ => Live.Err Connection)
    (fun _ ex _ _ => match ex with
                     | Binance => Live.Ok (sample_response "cancelled")
                     | Bybit => Live.Err Connection
                     end)
    (fun _ _ => Live.Ok tt) (fun _ => 5) (fun _ => 0%Z).

(** Every venue accepts: placements are acknowledged as order "o3". *)
Definition accepting_venues : Live.Venues :=
  Live.mkVenues (fun _ _ _ => Live.Ok (sample_response "o3"))
    (fun _ _ _ _ => Live.Ok (sample_response "cancelled"))
    (fun _ _ => Live.Ok tt) (fun _ => 5) (fun _ => 0%Z).

(** Two tracked orders, a 0.05 BTCUSDT position, both connectors. *)
Definition sample_state (cfg : Cfg.ArbitrageConfig) : Live.LiveState :=
  Live.mkLive cfg [Binance; Bybit]
    [("o1"%string, (Bybit, sample_response "o1")); ("o2"%string, (Binance, sample_response "o2"))]
    [("BTCUSDT"%string, Live.mkPosition Binance "BTCUSDT" (5#100) 50000 0 0)]
    Live.default_statistics false [].

(** Draws of the simulator: no rejection, zero slippage, no partial fill. *)
Definition sample_draws : DryRun.Draws := DryRun.mkDraws 1 0 1 0 0 "dry_1" 0.

(** A simulator holding the Binance book that rejects one order in two,
    with market impact and partial fills switched on. *)
Definition lossy_executor : DryRun.DryRunExecutor :=
  DryRun.mkExecutor Cfg.default
    (DryRun.mkExecConfig true (1#1000) (1#1000) false true (1#10000) true (1#2) (1#2) (1#10))
    (DryRun.Portfolio_new DryRun.default_initial_balances)
    sample_market_data [] DryRun.default_metrics [].

(** Draws that pass the rejection check and fill half the order. *)
Definition partial_draws : DryRun.Draws := DryRun.mkDraws 1 (1#1000) 0 (1#2) 0 "dry_2" 0.

(** Draws that reject the order when the rejection probability is positive. *)
Definition rejecting_draws : DryRun.Draws := DryRun.mkDraws 0 0 1 0 0 "dry_3" 0.

(** A buy then a sell on the simulator; [None] if either is rejected. *)
Definition dry_run_round_trip (d1 d2 : DryRun.Draws) (buy sell : LimitOrder.t)
    (ex : DryRun.DryRunExecutor) : option DryRun.DryRunExecutor :=
  match DryRun.execute_order d1 buy ex with
  | (Live.Ok _, ex1) =>
      match DryRun.execute_order d2 sell ex1 with
      | (Live.Ok _, ex2) => Some ex2
      | _ => None
      end
  | _ => None
  end.

Definition sample_spot_opportunity : Spot.ArbitrageOpportunity :=
  Spot.mk "BTCUSDT" Binance Bybit 50000 50100 1 20 100 0.

Definition sample_futures_opportunity : Futures.FuturesArbitrageOpportunity :=
  Futures.mk "BTCUSDT" Bybit Binance Sell Buy 50100 50000 1 20 (92525#1000)
    Futures.bybit_maker_fee Futures.binance_taker_fee 10 0.

(** Three loop iterations: two opportunities (one executed), none, one
    executed. *)
Definition sample_iterations : list (Z * nat * list (Spot.ArbitrageOpportunity * bool)) :=
  [(1%Z, 1%nat, [(sample_spot_opportunity, true); (sample_spot_opportunity, false)]);
   (2%Z, 2%nat, []);
   (3%Z, 3%nat, [(sample_spot_opportunity, true)])].

(** * Properties *)

(** ** Arithmetic of the [f64] helpers *)

Lemma qlt_true (a b : Q) : qlt a b = true <-> a < b.
Proof.
  unfold qlt. rewrite negb_true_iff. split; intro H.
  - apply Qnot_le_lt. intro H'. apply Qle_bool_iff in H'. congruence.
  - destruct (Qle_bool b a) eqn:E; [|reflexivity].
    apply Qle_bool_iff in E. exfalso. apply (Qlt_not_le a b); assumption.
Qed.

Lemma qlt_false (a b : Q) : qlt a b = false <-> b <= a.
Proof.
  unfold qlt. rewrite negb_false_iff. apply Qle_bool_iff.
Qed.

Lemma Qle_bool_false (a b : Q) : Qle_bool a b = false <-> b < a.
Proof.
  split; intro H.
  - apply Qnot_le_lt. intro H'. apply Qle_bool_iff in H'. congruence.
  - destruct (Qle_bool a b) eqn:E; [|reflexivity].
    apply Qle_bool_iff in E. exfalso. apply (Qlt_not_le b a); assumption.
Qed.

Lemma f64_round_comp (x y : Q) : x == y -> f64_round x = f64_round y.
Proof.
  intro H. unfold f64_round.
  assert (E : Qle_bool 0 x = Qle_bool 0 y).
  { destruct (Qle_bool 0 x) eqn:Ex, (Qle_bool 0 y) eqn:Ey; try reflexivity.
    - apply Qle_bool_iff in Ex. apply Qle_bool_false in Ey.
      exfalso. rewrite H in Ex. apply (Qlt_not_le y 0); assumption.
    - apply Qle_bool_false in Ex. apply Qle_bool_iff in Ey.
      exfalso. rewrite <- H in Ey. apply (Qlt_not_le x 0); assumption. }
  rewrite E. f_equal.
  destruct (Qle_bool 0 y).
  - apply Qfloor_comp. rewrite H. reflexivity.
  - f_equal. apply Qfloor_comp. rewrite H. reflexivity.
Qed.

(** ** The spot detector *)

Lemma spot_scenario_shape cfg now bx sx bb sb o :
  In o (Spot.scenario cfg now bx sx bb sb) ->
  exists ask bid qa qb,
    OrderBook.best_ask bb = Some ask /\ OrderBook.best_bid sb = Some bid /\
    OrderBook.best_ask_quantity bb = Some qa /\
    OrderBook.best_bid_quantity sb = Some qb /\
    ask < bid /\
    Cfg.min_order_size (Cfg.execution cfg) < Spot.quantity o /\
    o = Spot.mk (Cfg.symbol (Cfg.strategy cfg)) bx sx ask bid
          (Spot.quantity o) (f64_round ((bid - ask) / ask * 10000))
          ((bid - ask) * Spot.quantity o) now /\
    Spot.quantity o = Qmin (Qmin qa qb) (Cfg.max_position_size (Cfg.strategy cfg)).
Proof.
  unfold Spot.scenario.
  destruct (OrderBook.best_ask bb) as [ask|] eqn:Ea; [|simpl; tauto].
  destruct (OrderBook.best_bid sb) as [bid|] eqn:Eb; [|simpl; tauto].
  destruct (qlt ask bid) eqn:Ec; [|simpl; tauto].
  destruct (Qle_bool _ _); [|simpl; tauto].
  destruct (qlt _ (Qmin _ _)) eqn:Eq; [|simpl; tauto].
  intros [<-|[]].
  unfold OrderBook.best_ask, OrderBook.best_ask_quantity in *.
  unfold OrderBook.best_bid, OrderBook.best_bid_quantity in *.
  destruct (hd_error (OrderBook.asks bb)) as [[pa qa]|]; [|discriminate].
  destruct (hd_error (OrderBook.bids sb)) as [[pb qb]|]; [|discriminate].
  simpl in *. injection Ea as <-. injection Eb as <-.
  exists pa, pb, qa, qb. simpl.
  apply qlt_true in Ec. apply qlt_true in Eq.
  repeat split; assumption.
Qed.

Lemma spot_scenario_uncrossed cfg now bx sx bb sb :
  (forall ask bid, OrderBook.best_ask bb = Some ask ->
     OrderBook.best_bid sb = Some bid -> bid <= ask) ->
  Spot.scenario cfg now bx sx bb sb = [].
Proof.
  intro H. unfold Spot.scenario.
  destruct (OrderBook.best_ask bb) as [ask|] eqn:Ea; [|reflexivity].
  destruct (OrderBook.best_bid sb) as [bid|] eqn:Eb; [|reflexivity].
  rewrite (proj2 (qlt_false ask bid) (H ask bid eq_refl eq_refl)).
  reflexivity.
Qed.

Lemma spot_scenario_example cfg now bx sx bb sb ask bid qa qb :
  Cfg.min_spread_bps (Cfg.strategy cfg) = 5%nat ->
  1 <= Cfg.max_position_size (Cfg.strategy cfg) ->
  Cfg.min_order_size (Cfg.execution cfg) < 1 ->
  OrderBook.best_ask bb = Some ask -> ask == 50000 ->
  OrderBook.best_ask_quantity bb = Some qa -> qa == 1 ->
  OrderBook.best_bid sb = Some bid -> bid == 50100 ->
  OrderBook.best_bid_quantity sb = Some qb -> qb == 1 ->
  exists o, Spot.scenario cfg now bx sx bb sb = [o] /\
    Spot.spread_bps o == 20 /\ Spot.quantity o == 1 /\
    Spot.expected_profit o == 100 /\
    Spot.buy_exchange o = bx /\ Spot.sell_exchange o = sx.
Proof.
  intros Hs Hmax Hmin Ea Ha Eqa Hqa Eb Hb Eqb Hqb.
  unfold Spot.scenario. rewrite Ea, Eb, Eqa, Eqb. simpl unwrap_or.
  rewrite (proj2 (qlt_true ask bid)) by (rewrite Ha, Hb; reflexivity).
  rewrite (f64_round_comp ((bid - ask) / ask * 10000) 20)
    by (rewrite Ha, Hb; reflexivity).
  rewrite Hs.
  assert (Hq : Qmin (Qmin qa qb) (Cfg.max_position_size (Cfg.strategy cfg)) == 1).
  { rewrite Hqa, Hqb. rewrite Q.min_id. apply Q.min_l. assumption. }
  change (Qle_bool (inject_Z (Z.of_nat 5)) (f64_round 20)) with true.
  rewrite (proj2 (qlt_true _ _)) by (rewrite Hq; assumption).
  eexists. split; [reflexivity|]. simpl.
  repeat split; try reflexivity; try assumption.
  rewrite Hq, Ha, Hb. reflexivity.
Qed.

(** Claim C1.  With [min_spread_bps = 5], a max position size of at least
    1.0, a minimum order size below 1.0 (the spot detector has no fees):
    when venue A's book has best bid 50100 with quantity 1.0, venue B's
    book has best ask 50000 with quantity 1.0, and the books are not crossed
    the other way (B's bid does not exceed A's ask), the spot
    [detect_opportunities] returns exactly one opportunity, buying on B and
    selling on A, with spread 20 bps, quantity 1.0 and profit 100.0. *)
Theorem spot_detect_single_opportunity
    cfg now (exA : Exchange) (bookA bookB : OrderBook.t) bidA qbidA askB qaskB :
  Cfg.min_spread_bps (Cfg.strategy cfg) = 5%nat ->
  1 <= Cfg.max_position_size (Cfg.strategy cfg) ->
  Cfg.min_order_size (Cfg.execution cfg) < 1 ->
  OrderBook.best_bid bookA = Some bidA -> bidA == 50100 ->
  OrderBook.best_bid_quantity bookA = Some qbidA -> qbidA == 1 ->
  OrderBook.best_ask bookB = Some askB -> askB == 50000 ->
  OrderBook.best_ask_quantity bookB = Some qaskB -> qaskB == 1 ->
  (forall askA bidB, OrderBook.best_ask bookA = Some askA ->
     OrderBook.best_bid bookB = Some bidB -> bidB <= askA) ->
  exists o,
    Spot.detect_opportunities cfg now
      (Some (fst (stored_pair exA bookA bookB)))
      (Some (snd (stored_pair exA bookA bookB))) = [o] /\
    Spot.spread_bps o == 20 /\ Spot.quantity o == 1 /\
    Spot.expected_profit o == 100 /\
    Spot.buy_exchange o = other_exchange exA /\ Spot.sell_exchange o = exA.
Proof.
  intros Hs Hmax Hmin Eb Hb Eqb Hqb Ea Ha Eqa Hqa Hunc.
  destruct (spot_scenario_example cfg now (other_exchange exA) exA bookB bookA
              askB bidA qaskB qbidA Hs Hmax Hmin Ea Ha Eqa Hqa Eb Hb Eqb Hqb)
    as [o [Ho Hrest]].
  exists o. split; [|exact Hrest].
  unfold Spot.detect_opportunities.
  destruct exA; simpl in *.
  - rewrite (spot_scenario_uncrossed cfg now Binance Bybit bookA bookB Hunc).
    rewrite Ho. reflexivity.
  - rewrite Ho. rewrite (spot_scenario_uncrossed cfg now Bybit Binance bookA bookB Hunc).
    reflexivity.
Qed.

(** ** The futures detector *)

Lemma Qlt_minus_pos (a b : Q) : a < b -> 0 < b - a.
Proof.
  intro H. apply (Qplus_lt_l _ _ a). ring_simplify. assumption.
Qed.

Lemma futures_scenario1_shape cfg now sym mb tb o :
  In o (Futures.scenario1 cfg now sym mb tb) -> futures_emitted cfg sym mb tb o.
Proof.
  unfold Futures.scenario1.
  destruct (OrderBook.best_bid mb) as [bid|] eqn:Eb; [|simpl; tauto].
  destruct (OrderBook.best_ask tb) as [ask|] eqn:Ea; [|simpl; tauto].
  destruct (qlt ask bid) eqn:Ec; [|simpl; tauto].
  destruct (Qle_bool _ _); [|simpl; tauto].
  destruct (qlt _ (Qmin _ _)) eqn:Eq; [|simpl; tauto].
  destruct (qlt 0 _) eqn:Ep; [|simpl; tauto].
  intros [<-|[]].
  unfold OrderBook.best_ask, OrderBook.best_ask_quantity in *.
  unfold OrderBook.best_bid, OrderBook.best_bid_quantity in *.
  destruct (hd_error (OrderBook.bids mb)) as [[pb qb]|] eqn:Hb; [|discriminate].
  destruct (hd_error (OrderBook.asks tb)) as [[pa qa]|] eqn:Ha; [|discriminate].
  simpl in *. injection Ea as <-. injection Eb as <-.
  apply qlt_true in Ec. apply qlt_true in Eq. apply qlt_true in Ep.
  exists qb, qa. unfold futures_spread, top_quantity.
  unfold OrderBook.best_bid_quantity, OrderBook.best_ask_quantity.
  simpl. rewrite Ha, Hb.
  repeat split; try reflexivity; try assumption.
  apply Qlt_minus_pos. assumption.
Qed.

Lemma futures_scenario2_shape cfg now sym mb tb o :
  In o (Futures.scenario2 cfg now sym mb tb) -> futures_emitted cfg sym mb tb o.
Proof.
  unfold Futures.scenario2.
  destruct (OrderBook.best_ask mb) as [ask|] eqn:Ea; [|simpl; tauto].
  destruct (OrderBook.best_bid tb) as [bid|] eqn:Eb; [|simpl; tauto].
  destruct (qlt ask bid) eqn:Ec; [|simpl; tauto].
  destruct (Qle_bool _ _); [|simpl; tauto].
  destruct (qlt _ (Qmin _ _)) eqn:Eq; [|simpl; tauto].
  destruct (qlt 0 _) eqn:Ep; [|simpl; tauto].
  intros [<-|[]].
  unfold OrderBook.best_ask, OrderBook.best_ask_quantity in *.
  unfold OrderBook.best_bid, OrderBook.best_bid_quantity in *.
  destruct (hd_error (OrderBook.asks mb)) as [[pa qa]|] eqn:Ha; [|discriminate].
  destruct (hd_error (OrderBook.bids tb)) as [[pb qb]|] eqn:Hb; [|discriminate].
  simpl in *. injection Ea as <-. injection Eb as <-.
  apply qlt_true in Ec. apply qlt_true in Eq. apply qlt_true in Ep.
  exists qa, qb. unfold futures_spread, top_quantity.
  unfold OrderBook.best_bid_quantity, OrderBook.best_ask_quantity.
  simpl. rewrite Ha, Hb.
  repeat split; try reflexivity; try assumption.
  apply Qlt_minus_pos. assumption.
Qed.

Lemma futures_detect_shape cfg now syms md o :
  In o (Futures.detect_opportunities cfg now syms md) ->
  exists binance_books bybit_books mb tb,
    Futures.exchange_data Binance md = Some binance_books /\
    Futures.exchange_data Bybit md = Some bybit_books /\
    In (Futures.symbol o) syms /\
    lookup (Futures.symbol o) bybit_books = Some mb /\
    lookup (Futures.symbol o) binance_books = Some tb /\
    futures_emitted cfg (Futures.symbol o) mb tb o.
Proof.
  unfold Futures.detect_opportunities.
  destruct (Futures.exchange_data Binance md) as [bn|] eqn:Ebn; [|simpl; tauto].
  destruct (Futures.exchange_data Bybit md) as [bb|] eqn:Ebb; [|simpl; tauto].
  intro Hin. apply in_flat_map in Hin as [sym [Hsym Hin]].
  destruct (lookup sym bn) as [tb|] eqn:Et; [|simpl in Hin; tauto].
  destruct (lookup sym bb) as [mb|] eqn:Em; [|simpl in Hin; tauto].
  unfold Futures.analyze_maker_taker_opportunity in Hin.
  apply in_app_or in Hin.
  assert (He : futures_emitted cfg sym mb tb o)
    by (destruct Hin as [H|H];
        [apply (futures_scenario1_shape cfg now) | apply (futures_scenario2_shape cfg now)];
        exact H).
  assert (Hs : Futures.symbol o = sym) by (destruct He as (? & ? & ? & _); assumption).
  rewrite Hs. exists bn, bb, mb, tb. repeat split; assumption.
Qed.

Lemma spot_detect_shape cfg now obn obb o :
  In o (Spot.detect_opportunities cfg now obn obb) ->
  exists bn bb, obn = Some bn /\ obb = Some bb /\
  exists ask bid qa qb,
    let book ex := match ex with Binance => bn | Bybit => bb end in
    OrderBook.best_ask (book (Spot.buy_exchange o)) = Some ask /\
    OrderBook.best_bid (book (Spot.sell_exchange o)) = Some bid /\
    OrderBook.best_ask_quantity (book (Spot.buy_exchange o)) = Some qa /\
    OrderBook.best_bid_quantity (book (Spot.sell_exchange o)) = Some qb /\
    Spot.buy_price o = ask /\ Spot.sell_price o = bid /\ ask < bid /\
    Cfg.min_order_size (Cfg.execution cfg) < Spot.quantity o /\
    Spot.expected_profit o = (bid - ask) * Spot.quantity o /\
    Spot.quantity o = Qmin (Qmin qa qb) (Cfg.max_position_size (Cfg.strategy cfg)).
Proof.
  unfold Spot.detect_opportunities.
  destruct obn as [bn|]; [|simpl; tauto].
  destruct obb as [bb|]; [|simpl; tauto].
  intro Hin. exists bn, bb. split; [reflexivity|]. split; [reflexivity|].
  apply in_app_or in Hin as [Hin|Hin];
    apply spot_scenario_shape in Hin as
      (ask & bid & qa & qb & Ea & Eb & Eqa & Eqb & Hlt & Hmin & Ho & Hq);
    exists ask, bid, qa, qb; rewrite Ho; simpl;
    repeat split; assumption.
Qed.

(** Claim C2 (as the code has it).  Every opportunity the futures (maker/taker) detector emits
    carries the venue- and side-specific fee constants (Bybit maker fee
    -0.025%, a rebate, and Binance taker fee 0.04%), its expected profit is
    spread x quantity + maker rebate - taker cost, where the rebate is
    maker price x quantity x |maker fee| and the cost is taker price x
    quantity x taker fee, and that profit is positive (a candidate whose
    profit is <= 0 is not emitted).  The spot detector has no fee model: its
    profit is spread x quantity (the same formula with both fee terms 0),
    and it has no profit check: the profit is positive only because the
    quantity exceeds the minimum order size, so only when that minimum is
    not negative. *)
Theorem detect_profit_fee_adjusted :
  (forall cfg now syms md o,
     In o (Futures.detect_opportunities cfg now syms md) ->
     Futures.maker_fee o = Futures.bybit_maker_fee /\
     Futures.taker_fee o = Futures.binance_taker_fee /\
     Futures.bybit_maker_fee < 0 /\
     Futures.expected_profit o ==
       futures_spread o * Futures.quantity o
       + Futures.maker_price o * Futures.quantity o * Qabs (Futures.maker_fee o)
       - Futures.taker_price o * Futures.quantity o * Futures.taker_fee o /\
     0 < Futures.expected_profit o) /\
  (forall cfg now obn obb o,
     In o (Spot.detect_opportunities cfg now obn obb) ->
     Spot.expected_profit o ==
       (Spot.sell_price o - Spot.buy_price o) * Spot.quantity o + 0 - 0 /\
     (0 <= Cfg.min_order_size (Cfg.execution cfg) -> 0 < Spot.expected_profit o)).
Proof.
  split.
  - intros cfg now syms md o Hin.
    apply futures_detect_shape in Hin as (_ & _ & mb & tb & _ & _ & _ & _ & _ & He).
    destruct He as (qm & qt & _ & _ & _ & _ & _ & _ & _ & Hmf & Htf & Hp & Hpos).
    repeat split; try assumption.
    all: try (rewrite Hp; reflexivity).
    all: reflexivity.
  - intros cfg now obn obb o Hin.
    apply spot_detect_shape in Hin as
      (bn & bb & _ & _ & ask & bid & qa & qb & _ & _ & _ & _ & Hb & Hs & Hlt & Hmin & Hp & _).
    rewrite Hp, Hb, Hs. split; [ring|].
    intro H0. apply Qmult_lt_0_compat.
    + apply Qlt_minus_pos. assumption.
    + apply Qle_lt_trans with (1 := H0). assumption.
Qed.

(** Claim C2 (counterexample).  The spot detector has no profit check of
    its own: under [unvalidated_cfg] (max position size 0, minimum order
    size -1) the 20 bps spread of the sample books passes, the quantity is
    capped to 0, which is still above the minimum, and the opportunity is
    emitted with an expected profit of 0. *)
Lemma spot_detect_zero_profit :
  exists o,
    In o (Spot.detect_opportunities unvalidated_cfg 0 (Some binance_book) (Some bybit_book)) /\
    Spot.expected_profit o == 0.
Proof.
  remember (Spot.detect_opportunities unvalidated_cfg 0 (Some binance_book) (Some bybit_book))
    as L eqn:E.
  destruct L as [|o r]; [vm_compute in E; discriminate E|].
  exists o. split; [left; reflexivity|].
  vm_compute in E. injection E as Ho _. subst o. reflexivity.
Qed.

(** Claim C3.  For both detectors, every emitted opportunity's quantity is
    the minimum of the top-of-book quantities on the two sides it trades
    (the ask of the venue it buys on, the bid of the venue it sells on) and
    the configured max position size, and it lies between the configured
    minimum order size and the max position size; a candidate whose capped
    quantity is below the minimum order size is therefore never emitted. *)
Theorem detect_quantity_capped :
  (forall cfg now obn obb o,
     In o (Spot.detect_opportunities cfg now obn obb) ->
     exists bn bb qa qb, obn = Some bn /\ obb = Some bb /\
       let book ex := match ex with Binance => bn | Bybit => bb end in
       OrderBook.best_ask_quantity (book (Spot.buy_exchange o)) = Some qa /\
       OrderBook.best_bid_quantity (book (Spot.sell_exchange o)) = Some qb /\
       Spot.quantity o = Qmin (Qmin qa qb) (Cfg.max_position_size (Cfg.strategy cfg)) /\
       Cfg.min_order_size (Cfg.execution cfg) <= Spot.quantity o /\
       Spot.quantity o <= Cfg.max_position_size (Cfg.strategy cfg)) /\
  (forall cfg now syms md o,
     In o (Futures.detect_opportunities cfg now syms md) ->
     exists binance_books bybit_books mb tb qm qt,
       Futures.exchange_data Binance md = Some binance_books /\
       Futures.exchange_data Bybit md = Some bybit_books /\
       lookup (Futures.symbol o) bybit_books = Some mb /\
       lookup (Futures.symbol o) binance_books = Some tb /\
       top_quantity mb (Futures.maker_side o) = Some qm /\
       top_quantity tb (Futures.taker_side o) = Some qt /\
       Futures.quantity o = Qmin (Qmin qm qt) (Cfg.max_position_size (Cfg.strategy cfg)) /\
       Cfg.min_order_size (Cfg.execution cfg) <= Futures.quantity o /\
       Futures.quantity o <= Cfg.max_position_size (Cfg.strategy cfg)).
Proof.
  split.
  - intros cfg now obn obb o Hin.
    apply spot_detect_shape in Hin as
      (bn & bb & Hbn & Hbb & ask & bid & qa & qb & _ & _ & Eqa & Eqb & _ & _ & _ & Hmin & _ & Hq).
    exists bn, bb, qa, qb. repeat split; try assumption.
    + apply Qlt_le_weak. assumption.
    + rewrite Hq. apply Q.le_min_r.
  - intros cfg now syms md o Hin.
    apply futures_detect_shape in Hin as (bn & bb & mb & tb & Ebn & Ebb & _ & Emb & Etb & He).
    destruct He as (qm & qt & _ & Eqm & Eqt & _ & Hq & Hmin & _).
    exists bn, bb, mb, tb, qm, qt. repeat split; try assumption.
    + apply Qlt_le_weak. assumption.
    + rewrite Hq. apply Q.le_min_r.
Qed.

(** ** The live coordinator *)

(** Claim C4.  For every order and every positions state, the risk check
    rejects with a [RiskManagement] error exactly when the absolute net
    position the order would leave for its symbol (buy adds, sell
    subtracts) exceeds the configured max position size, or the order
    quantity is below the configured minimum order size, and succeeds
    otherwise.  In particular an order of 1.0 on a position of 0.05 with a
    max of 1.0 (new absolute position 1.05) is rejected. *)
Theorem check_risk_limits_spec :
  (forall (s : Live.LiveState) (order : LimitOrder.t),
    (Live.check_risk_limits s order = Live.Err RiskManagement <->
       Cfg.max_position_size (Cfg.strategy (Live.config s)) < Qabs (net_position_after s order)
       \/ LimitOrder.quantity order < Cfg.min_order_size (Cfg.execution (Live.config s))) /\
    (Live.check_risk_limits s order = Live.Ok tt <->
       ~ (Cfg.max_position_size (Cfg.strategy (Live.config s)) < Qabs (net_position_after s order)
          \/ LimitOrder.quantity order < Cfg.min_order_size (Cfg.execution (Live.config s))))) /\
  (forall (s : Live.LiveState) (order : LimitOrder.t) p,
    lookup (LimitOrder.symbol order) (Live.positions s) = Some p ->
    Live.size p == 5 # 100 -> LimitOrder.side order = Buy ->
    LimitOrder.quantity order == 1 ->
    Cfg.max_position_size (Cfg.strategy (Live.config s)) == 1 ->
    Live.check_risk_limits s order = Live.Err RiskManagement).
Proof.
  assert (Hgen : forall (s : Live.LiveState) (order : LimitOrder.t),
    (Live.check_risk_limits s order = Live.Err RiskManagement <->
       Cfg.max_position_size (Cfg.strategy (Live.config s)) < Qabs (net_position_after s order)
       \/ LimitOrder.quantity order < Cfg.min_order_size (Cfg.execution (Live.config s))) /\
    (Live.check_risk_limits s order = Live.Ok tt <->
       ~ (Cfg.max_position_size (Cfg.strategy (Live.config s)) < Qabs (net_position_after s order)
          \/ LimitOrder.quantity order < Cfg.min_order_size (Cfg.execution (Live.config s))))).
  { intros s order. unfold Live.check_risk_limits.
    fold (net_position_after s order).
    destruct (qlt _ (Qabs _)) eqn:E1.
    - apply qlt_true in E1. split; split; intro H; try discriminate; try tauto.
    - apply qlt_false in E1.
      destruct (qlt (LimitOrder.quantity order) _) eqn:E2.
      + apply qlt_true in E2. split; split; intro H; try discriminate; try tauto.
      + apply qlt_false in E2. split; split; intro H; try discriminate.
        * exfalso. destruct H as [H|H]; [apply (Qlt_not_le _ _ H E1)|apply (Qlt_not_le _ _ H E2)].
        * intros [H'|H']; [apply (Qlt_not_le _ _ H' E1)|apply (Qlt_not_le _ _ H' E2)].
        * reflexivity. }
  split; [exact Hgen|].
  intros s order p Hp Hsz Hside Hq Hmax.
  apply (proj2 (proj1 (Hgen s order))). left.
  unfold net_position_after. rewrite Hp, Hside. cbn [unwrap_or option_map].
  rewrite Hsz, Hq, Hmax. reflexivity.
Qed.

(** Claim C10.  When [place_order] fails because the emergency-shutdown
    flag is set, or because the risk check rejects the order, it returns
    the error and leaves the coordinator's whole state as it was: active
    orders, execution statistics (total and failed order counts included),
    positions, and no venue call made.  A venue failure, by contrast, is
    counted as a failed order. *)
Theorem place_order_rejection_frame :
  forall (venues : Live.Venues) (s : Live.LiveState) ex order,
    (Live.emergency_shutdown_flag s = true ->
       Live.place_order venues ex order s = (Live.Done (Live.Err Trading), s)) /\
    (Live.emergency_shutdown_flag s = false ->
       Live.check_risk_limits s order = Live.Err RiskManagement ->
       Live.place_order venues ex order s = (Live.Done (Live.Err RiskManagement), s)) /\
    (forall e, Live.emergency_shutdown_flag s = false ->
       Live.check_risk_limits s order = Live.Ok tt ->
       Live.has_connector ex s = true ->
       Live.place_reply venues (length (Live.events s)) ex order = Live.Err e ->
       exists s', Live.place_order venues ex order s = (Live.Done (Live.Err e), s') /\
         Live.failed_orders (Live.statistics s') = S (Live.failed_orders (Live.statistics s)) /\
         Live.total_orders (Live.statistics s') = S (Live.total_orders (Live.statistics s))).
Proof.
  intros venues s ex order. repeat split.
  - intro H. unfold Live.place_order, Live.bind, Live.get. simpl. rewrite H. reflexivity.
  - intros H Hr. unfold Live.place_order, Live.bind, Live.get. simpl.
    rewrite H, Hr. reflexivity.
  - intros e H Hr Hc Hv. unfold Live.place_order, Live.bind, Live.get. simpl.
    rewrite H, Hr, Hc. simpl. rewrite Hv.
    eexists. split; [reflexivity|]. simpl. split; reflexivity.
Qed.

Lemma cancel_order_effect venues ex sym id (s : Live.LiveState) :
  exists r s', Live.cancel_order venues ex sym id s = (Live.Done r, s') /\
    Live.connectors s' = Live.connectors s /\
    Live.emergency_shutdown_flag s' = Live.emergency_shutdown_flag s /\
    Live.events s' = Live.events s ++
      (if Live.has_connector ex s then [Live.CancelOrder ex sym id] else []).
Proof.
  unfold Live.cancel_order, Live.bind, Live.get. simpl.
  destruct (Live.has_connector ex s) eqn:Hc; simpl.
  - destruct (Live.cancel_reply venues _ ex sym id) eqn:Hr; simpl.
    + do 2 eexists. split; [reflexivity|]. simpl. repeat split.
    + do 2 eexists. split; [reflexivity|]. simpl. repeat split.
  - do 2 eexists. split; [reflexivity|]. rewrite app_nil_r. repeat split.
Qed.

Lemma cancel_all_effect venues orders (s : Live.LiveState) :
  exists s', Live.cancel_all venues orders s = (Live.Done (Live.Ok tt), s') /\
    Live.connectors s' = Live.connectors s /\
    Live.emergency_shutdown_flag s' = Live.emergency_shutdown_flag s /\
    Live.events s' = Live.events s ++ cancel_calls s orders.
Proof.
  revert s. induction orders as [|[id [ex resp]] rest IH]; intro s.
  - exists s. simpl. rewrite app_nil_r. repeat split.
  - simpl. unfold Live.bind at 1, Live.attempt.
    destruct (cancel_order_effect venues ex (OrderResponse.symbol resp) id s)
      as (r & s1 & E1 & Hc1 & Hf1 & He1).
    rewrite E1.
    destruct (IH s1) as (s2 & E2 & Hc2 & Hf2 & He2).
    exists s2. split; [exact E2|].
    split; [congruence|]. split; [congruence|].
    rewrite He2, He1, <- app_assoc. f_equal. f_equal.
    unfold cancel_calls, Live.has_connector. rewrite Hc1. reflexivity.
Qed.

Lemma disconnect_all_effect venues exs (s : Live.LiveState) :
  exists s', Live.disconnect_all venues exs s = (Live.Done (Live.Ok tt), s') /\
    Live.emergency_shutdown_flag s' = Live.emergency_shutdown_flag s /\
    Live.events s' = Live.events s ++ map Live.Disconnect exs.
Proof.
  revert s. induction exs as [|ex rest IH]; intro s.
  - exists s. simpl. rewrite app_nil_r. repeat split.
  - simpl. unfold Live.bind at 1, Live.now_index, Live.bind, Live.get, Live.ret.
    simpl. fold (@Live.bind unit unit).
    destruct (IH (Live.set_events s (Live.events s ++ [Live.Disconnect ex])))
      as (s2 & E2 & Hf2 & He2).
    exists s2. split; [exact E2|]. split; [exact Hf2|].
    rewrite He2. simpl. rewrite <- app_assoc. reflexivity.
Qed.

(** Claim C5.  For every coordinator state (any tracked active orders, any
    connectors) and every behaviour of the venues (any cancel or disconnect
    call may fail), [emergency_shutdown] returns success, leaves the
    shutdown flag set, and makes, in order and whatever the earlier calls
    answered, one cancel call for every tracked active order whose venue
    has a connector and then one disconnect call for every connector.  In
    particular every such order's cancel is attempted even when another
    order's cancel fails. *)
Theorem emergency_shutdown_best_effort :
  forall (venues : Live.Venues) (s : Live.LiveState),
  exists s',
    Live.emergency_shutdown venues s = (Live.Done (Live.Ok tt), s') /\
    Live.emergency_shutdown_flag s' = true /\
    Live.events s' = Live.events s ++ cancel_calls s (Live.active_orders s)
                     ++ map Live.Disconnect (Live.connectors s) /\
    (forall order_id ex response,
       In (order_id, (ex, response)) (Live.active_orders s) ->
       Live.has_connector ex s = true ->
       In (Live.CancelOrder ex (OrderResponse.symbol response) order_id) (Live.events s')) /\
    (forall ex, In ex (Live.connectors s) -> In (Live.Disconnect ex) (Live.events s')).
Proof.
  intros venues s.
  set (s0 := Live.set_shutdown s true).
  destruct (cancel_all_effect venues (Live.active_orders s0) s0)
    as (s1 & E1 & Hc1 & Hf1 & He1).
  destruct (disconnect_all_effect venues (Live.connectors s1) s1)
    as (s2 & E2 & Hf2 & He2).
  assert (Hev : Live.events s2 = Live.events s ++ cancel_calls s (Live.active_orders s)
                 ++ map Live.Disconnect (Live.connectors s)).
  { rewrite He2, He1, Hc1. rewrite <- app_assoc. reflexivity. }
  exists s2. split; [|split; [|split; [exact Hev|split]]].
  - unfold Live.emergency_shutdown, Live.bind at 1, Live.modify. fold s0.
    unfold Live.bind at 1, Live.get.
    unfold Live.bind at 1. rewrite E1.
    unfold Live.bind at 1, Live.get.
    unfold Live.bind. rewrite E2. reflexivity.
  - rewrite Hf2, Hf1. reflexivity.
  - intros id ex resp Hin Hc. rewrite Hev. apply in_or_app. right.
    apply in_or_app. left. unfold cancel_calls. apply in_flat_map.
    exists (id, (ex, resp)). split; [exact Hin|]. rewrite Hc. left. reflexivity.
  - intros ex Hin. rewrite Hev. apply in_or_app. right.
    apply in_or_app. right. apply in_map. exact Hin.
Qed.

(** ** Retries *)

Lemma place_order_shutdown venues ex order (s : Live.LiveState) :
  Live.emergency_shutdown_flag s = true ->
  Live.place_order venues ex order s = (Live.Done (Live.Err Trading), s).
Proof.
  intro H. unfold Live.place_order, Live.bind, Live.get. simpl. rewrite H. reflexivity.
Qed.

Lemma place_order_risk_rejected venues ex order (s : Live.LiveState) :
  Live.emergency_shutdown_flag s = false ->
  Live.check_risk_limits s order = Live.Err RiskManagement ->
  Live.place_order venues ex order s = (Live.Done (Live.Err RiskManagement), s).
Proof.
  intros H Hr. unfold Live.place_order, Live.bind, Live.get. simpl.
  rewrite H, Hr. reflexivity.
Qed.

Lemma place_order_no_panic venues ex order (s : Live.LiveState) :
  fst (Live.place_order venues ex order s) <> Live.Panic.
Proof.
  unfold Live.place_order, Live.bind, Live.get, Live.fail. simpl.
  destruct (Live.emergency_shutdown_flag s); [discriminate|].
  destruct (Live.check_risk_limits s order); [|discriminate].
  destruct (Live.has_connector ex s); [|discriminate]. simpl.
  destruct (Live.place_reply venues _ ex order); discriminate.
Qed.

Lemma retry_loop_zero venues ex order n k (s : Live.LiveState) :
  Live.retry_loop venues ex order n k 0 None s = (Live.Panic, s).
Proof. reflexivity. Qed.

Lemma set_events_app_nil (s : Live.LiveState) :
  Live.set_events s (Live.events s ++ []) = s.
Proof. destruct s. unfold Live.set_events. simpl. rewrite app_nil_r. reflexivity. Qed.

Lemma retry_loop_risk_rejected venues ex order n :
  forall m k le (s : Live.LiveState),
  Live.emergency_shutdown_flag s = false ->
  Live.check_risk_limits s order = Live.Err RiskManagement ->
  (m <> O \/ le = Some RiskManagement) ->
  Live.retry_loop venues ex order n k m le s =
    (Live.Done (Live.Err RiskManagement),
     Live.set_events s (Live.events s ++ retry_log RiskManagement n k m)).
Proof.
  induction m as [|m IH]; intros k le s Hf Hr Hm.
  - destruct Hm as [Hm | ->]; [congruence|]. simpl.
    unfold retry_log. simpl. rewrite set_events_app_nil. reflexivity.
  - cbn [Live.retry_loop]. unfold Live.bind at 1, Live.attempt.
    rewrite (place_order_risk_rejected venues ex order s Hf Hr).
    unfold Live.emit, Live.modify, Live.bind, Live.ret. cbv beta iota.
    assert (Hlog : retry_log RiskManagement n k (S m) =
      Live.AttemptFailed k RiskManagement ::
        (if Nat.ltb k n then [Live.Sleep (1000 * k)] else [])
        ++ retry_log RiskManagement n (S k) m) by reflexivity.
    rewrite Hlog.
    destruct (Nat.ltb k n); cbv beta iota;
      (rewrite IH; [| exact Hf | exact Hr | right; reflexivity]);
      unfold Live.set_events; simpl; rewrite <- !app_assoc; reflexivity.
Qed.

(** For at least one attempt the retry loop never panics, and when it fails
    its last event is the [warn!] of attempt [n] with the error it returns:
    [n] attempts were made, no sleep follows the last, and the error of the
    last attempt is returned. *)
Lemma retry_loop_last_error venues ex order n :
  forall m k le (s : Live.LiveState),
  (k + m = S n)%nat -> m <> O ->
  fst (Live.retry_loop venues ex order n k m le s) <> Live.Panic /\
  (forall e s', Live.retry_loop venues ex order n k m le s = (Live.Done (Live.Err e), s') ->
     last (Live.events s') (Live.Sleep 0) = Live.AttemptFailed n e).
Proof.
  induction m as [|m IH]; intros k le s Hk Hm; [congruence|].
  cbn [Live.retry_loop]. unfold Live.bind, Live.attempt.
  pose proof (place_order_no_panic venues ex order s) as Hnp.
  destruct (Live.place_order venues ex order s) as [[[r|e1]|] s1]; simpl in Hnp;
    [| |congruence]; cbv beta iota.
  - unfold Live.ret. split; [discriminate|]. intros e s' H. discriminate H.
  - unfold Live.emit, Live.modify. cbv beta iota.
    destruct m as [|m].
    + assert (Hkn : k = n) by lia. subst k.
      rewrite Nat.ltb_irrefl. unfold Live.ret. cbv beta iota.
      cbn [Live.retry_loop]. unfold Live.fail.
      split; [discriminate|]. intros e s' H. injection H as <- <-.
      simpl. apply last_last.
    + destruct (Nat.ltb k n); unfold Live.ret; cbv beta iota;
        apply (IH (S k) (Some e1)); lia.
Qed.

(** Claim C6 (divergence).  With [max_retry_attempts = 0] the loop of
    [place_order_with_retry] runs no attempt and [last_error.unwrap()]
    panics: the call returns no error at all. *)
Theorem place_order_with_retry_zero_attempts_panics :
  forall (venues : Live.Venues) (s : Live.LiveState) ex order,
  Cfg.max_retry_attempts (Cfg.execution (Live.config s)) = O ->
  Live.place_order_with_retry venues ex order s = (Live.Panic, s).
Proof.
  intros venues s ex order H.
  unfold Live.place_order_with_retry, Live.bind at 1, Live.get. simpl.
  rewrite H. reflexivity.
Qed.

(** Claim C7 (as the code has it).  A [RiskManagement] rejection happens
    before any venue call and changes no state.  [place_order_with_retry]
    does not single it out: with [N >= 1] configured attempts it re-runs
    [place_order] [N] times, each rejected again by the risk check before
    any venue call, sleeping [1000 x attempt] ms between attempts, and
    returns the [RiskManagement] error; the only effects are those [N]
    logged failures and [N - 1] sleeps. *)
Theorem risk_rejection_retried_without_venue_call :
  forall (venues : Live.Venues) (s : Live.LiveState) ex order,
  Live.emergency_shutdown_flag s = false ->
  Live.check_risk_limits s order = Live.Err RiskManagement ->
  Live.place_order venues ex order s = (Live.Done (Live.Err RiskManagement), s) /\
  (let n := Cfg.max_retry_attempts (Cfg.execution (Live.config s)) in
   (1 <= n)%nat ->
   Live.place_order_with_retry venues ex order s =
     (Live.Done (Live.Err RiskManagement),
      Live.set_events s (Live.events s ++ retry_log RiskManagement n 1 n))).
Proof.
  intros venues s ex order Hf Hr. split.
  - apply place_order_risk_rejected; assumption.
  - intros n Hn. unfold Live.place_order_with_retry, Live.bind at 1, Live.get.
    simpl. fold n. apply retry_loop_risk_rejected; [assumption|assumption|lia].
Qed.

(** With at least one configured attempt, [place_order_with_retry] never
    panics, and a failure it returns is the error of the [N]-th attempt,
    whose [warn!] is its last event. *)
Lemma place_order_with_retry_nonzero venues ex order (s : Live.LiveState) :
  let n := Cfg.max_retry_attempts (Cfg.execution (Live.config s)) in
  (1 <= n)%nat ->
  fst (Live.place_order_with_retry venues ex order s) <> Live.Panic /\
  (forall e s', Live.place_order_with_retry venues ex order s = (Live.Done (Live.Err e), s') ->
     last (Live.events s') (Live.Sleep 0) = Live.AttemptFailed n e).
Proof.
  intros n Hn. unfold Live.place_order_with_retry, Live.bind at 1, Live.get.
  simpl. fold n. apply retry_loop_last_error; lia.
Qed.

(** ** The execution simulator *)

(** Under the simulator's default execution settings an order is never
    rejected and fills in full at [calculate_execution_price], paying a fee
    of 0.1% of the notional whatever its time in force. *)
Lemma execute_order_default d order (ex : DryRun.DryRunExecutor) :
  DryRun.exec_config ex = DryRun.default_exec_config ->
  0 < LimitOrder.quantity order ->
  let p := DryRun.calculate_execution_price ex order d in
  let q := LimitOrder.quantity order in
  exists r ex',
    DryRun.execute_order d order ex = (Live.Ok r, ex') /\
    OrderResponse.filled_quantity r = q /\
    OrderResponse.average_price r = Some p /\
    DryRun.exec_config ex' = DryRun.exec_config ex /\
    DryRun.current_prices ex' = DryRun.current_prices ex /\
    DryRun.portfolio ex' = DryRun.update_portfolio (DryRun.portfolio ex) order q p (q * p * (1#1000)).
Proof.
  intros Hc Hq p q. unfold DryRun.execute_order. fold p. rewrite Hc.
  assert (Hr : DryRun.should_reject_order DryRun.default_exec_config d = false)
    by reflexivity.
  assert (Hf : DryRun.calculate_fill_quantity DryRun.default_exec_config order d = q)
    by reflexivity.
  assert (Hfee : DryRun.calculate_fees DryRun.default_exec_config order q p = q * p * (1#1000))
    by (unfold DryRun.calculate_fees; destruct (TimeInForce_eqb _ _); reflexivity).
  assert (Hpos : qlt 0 q = true) by (apply qlt_true; exact Hq).
  rewrite Hr, Hf. change (DryRun.enable_fees DryRun.default_exec_config) with true.
  cbv beta iota zeta. rewrite Hfee, Hpos, Qeq_bool_refl.
  eexists _, _. split; [reflexivity|]. cbn.
  repeat split; reflexivity.
Qed.

(** Claim C8 (as the code has it).  On an executor whose portfolio is the
    fresh one (100000 USDT, no position) and whose execution settings are
    the defaults that [DryRunExecutor::new] installs, a buy of [q > 0]
    followed by a sell of [q] of the same symbol both fill in full, the
    position returns to zero, and the total PnL of [get_results] is
    [q (es - eb) - 0.001 q (eb + es)], where [eb] and [es] are the two
    execution prices: the fees are always charged, so the PnL is positive
    exactly when [eb (1 + 0.001) < es (1 - 0.001)]. *)
Theorem dry_run_round_trip_pnl :
  forall (ex : DryRun.DryRunExecutor) sym q pb ps tb ts cb cs db ds,
  DryRun.exec_config ex = DryRun.default_exec_config ->
  DryRun.portfolio ex = DryRun.Portfolio_new DryRun.default_initial_balances ->
  0 < q ->
  exists rb rs ex1 ex2 eb es,
    DryRun.execute_order db (LimitOrder.mk sym Buy q pb tb cb) ex = (Live.Ok rb, ex1) /\
    DryRun.execute_order ds (LimitOrder.mk sym Sell q ps ts cs) ex1 = (Live.Ok rs, ex2) /\
    OrderResponse.filled_quantity rb = q /\ OrderResponse.filled_quantity rs = q /\
    OrderResponse.average_price rb = Some eb /\ OrderResponse.average_price rs = Some es /\
    DryRun.get_position (DryRun.portfolio ex2) sym == 0 /\
    snd (DryRun.get_results ex2) == q * (es - eb) - (1#1000) * q * (eb + es) /\
    (0 < snd (DryRun.get_results ex2) <-> eb * (1001#1000) < es * (999#1000)).
Proof.
  intros ex sym q pb ps tb ts cb cs db ds Hc Hp Hq.
  destruct (execute_order_default db (LimitOrder.mk sym Buy q pb tb cb) ex Hc Hq)
    as (rb & ex1 & Hb & Hfb & Hab & Hc1 & Hcp1 & Hp1).
  cbn [LimitOrder.quantity] in *.
  rewrite <- Hc1 in Hc.
  destruct (execute_order_default ds (LimitOrder.mk sym Sell q ps ts cs) ex1 Hc Hq)
    as (rs & ex2 & Hs & Hfs & Has & Hc2 & Hcp2 & Hp2).
  cbn [LimitOrder.quantity] in *.
  set (eb := DryRun.calculate_execution_price ex _ db) in *.
  set (es := DryRun.calculate_execution_price ex1 _ ds) in *.
  assert (Hpnl : snd (DryRun.get_results ex2) == q * (es - eb) - (1#1000) * q * (eb + es)).
  { unfold DryRun.get_results. cbn [snd].
    rewrite Hp2, Hp1, Hp.
    unfold DryRun.calculate_pnl, DryRun.update_portfolio, DryRun.update_balance,
      DryRun.update_position, DryRun.get_balance, DryRun.get_position,
      DryRun.Portfolio_new, DryRun.default_initial_balances.
    cbn [DryRun.positions DryRun.balances DryRun.initial_balances LimitOrder.side
         LimitOrder.symbol insert lookup fold_left fst snd unwrap_or].
    rewrite !String.eqb_refl. simpl.
    destruct (lookup sym (DryRun.current_prices ex2)); ring. }
  exists rb, rs, ex1, ex2, eb, es.
  repeat split; try assumption.
  - rewrite Hp2, Hp1, Hp.
    unfold DryRun.update_portfolio, DryRun.update_position, DryRun.update_balance,
      DryRun.get_position, DryRun.Portfolio_new.
    cbn [DryRun.positions LimitOrder.side LimitOrder.symbol insert lookup].
    cbn [insert]. rewrite !String.eqb_refl. simpl. rewrite String.eqb_refl. simpl. ring.
  - intros H. rewrite Hpnl in H.
    setoid_replace (q * (es - eb) - (1#1000) * q * (eb + es))
      with (q * (es * (999#1000) - eb * (1001#1000))) in H by ring.
    rewrite Qlt_minus_iff.
    apply (Qmult_lt_l _ _ q Hq). rewrite Qmult_0_r. exact H.
  - intros H. rewrite Hpnl.
    setoid_replace (q * (es - eb) - (1#1000) * q * (eb + es))
      with (q * (es * (999#1000) - eb * (1001#1000))) by ring.
    rewrite Qlt_minus_iff in H.
    apply (Qmult_lt_l _ _ q Hq) in H. rewrite Qmult_0_r in H. exact H.
Qed.

(** Claim C8 (counterexample).  On a fresh simulator with the default
    configuration, buying 1 BTCUSDT at 50000 and selling it at 50001 (zero
    slippage drawn, no market data) brings the position back to zero, but
    the total PnL is [1 - 50 - 50.001 = -99.001]: the fees outweigh the
    price difference. *)
Lemma dry_run_round_trip_loses :
  exists ex2,
    dry_run_round_trip sample_draws sample_draws sample_buy sample_sell
      (DryRun.new Cfg.default) = Some ex2 /\
    LimitOrder.price sample_buy < LimitOrder.price sample_sell /\
    DryRun.get_position (DryRun.portfolio ex2) "BTCUSDT" == 0 /\
    snd (DryRun.get_results ex2) < 0.
Proof.
  eexists. split; [vm_compute; reflexivity|].
  split; [|split]; vm_compute; reflexivity.
Qed.

(** ** Strategy statistics *)

Lemma q_of_nat_neq_0 n : n <> O -> Qeq_bool (Stats.q_of_nat n) 0 = false.
Proof.
  intros Hn. destruct (Qeq_bool (Stats.q_of_nat n) 0) eqn:E; [|reflexivity].
  apply Qeq_bool_eq in E. unfold Qeq, Stats.q_of_nat in E. simpl in E. lia.
Qed.

Lemma rate_nonzero e d :
  d <> O -> Stats.rate e d = Stats.Fin (Stats.q_of_nat e / Stats.q_of_nat d * 100).
Proof.
  intros Hd. unfold Stats.rate, Stats.f64_div. rewrite (q_of_nat_neq_0 d Hd).
  reflexivity.
Qed.

Lemma rate_zero e : e <> O -> Stats.rate e 0 = Stats.PosInf.
Proof.
  intros He. unfold Stats.rate, Stats.f64_div.
  assert (Hp : qlt 0 (Stats.q_of_nat e) = true).
  { apply qlt_true. unfold Qlt, Stats.q_of_nat. simpl. lia. }
  rewrite Hp. reflexivity.
Qed.

(** The executions of one batch: while at most [detected] opportunities
    have been executed, every refresh divides by a nonzero count. *)
Lemma spot_batch_inv batch :
  forall now (s : Stats.StrategyStatistics),
  (Stats.opportunities_executed s + length batch <= Stats.opportunities_detected s)%nat ->
  (exists r, Stats.success_rate s = Stats.Fin r) ->
  Stats.spot_inv
    (fold_left (fun (acc : Stats.StrategyStatistics)
                    (ob : Spot.ArbitrageOpportunity * bool) =>
                  if snd ob then Stats.update_success_statistics (fst ob) now acc else acc)
               batch s).
Proof.
  induction batch as [|[o b] r IH]; intros now s Hle Hr; simpl in *.
  - split; [lia|exact Hr].
  - destruct b; apply IH; simpl; try lia; try exact Hr.
    rewrite rate_nonzero by lia. eexists; reflexivity.
Qed.

Lemma run_iteration_inv now uptime batch (s : Stats.StrategyStatistics) :
  Stats.spot_inv s -> Stats.spot_inv (Stats.run_iteration now uptime batch s).
Proof.
  intros [Hle Hr]. unfold Stats.run_iteration.
  destruct (spot_batch_inv batch now (Stats.add_detected (length batch) s)) as [H1 H2];
    simpl; try lia; try exact Hr.
  split; assumption.
Qed.

(** Claim C9 (as the code has it).  Both strategies set [success_rate] to
    [executed / detected * 100], a percentage, with no guard: with a zero
    detected count the f64 division gives +infinity.  In the spot loop every
    refresh comes after [detect_opportunities] has counted the opportunity,
    so executed never exceeds detected and the rate stays finite; the
    futures refresh runs from the public [execute_opportunity], and on fresh
    statistics (detected = 0) it stores +infinity. *)
Theorem success_rate_unguarded_percentage :
  (forall o now s,
     Stats.success_rate (Stats.update_success_statistics o now s) =
       Stats.rate (S (Stats.opportunities_executed s)) (Stats.opportunities_detected s)) /\
  (forall o now s,
     Stats.f_success_rate (Stats.update_execution_statistics o now s) =
       Stats.rate (S (Stats.f_opportunities_executed s)) (Stats.f_opportunities_detected s)) /\
  (forall e d, d <> O ->
     Stats.rate e d = Stats.Fin (Stats.q_of_nat e / Stats.q_of_nat d * 100)) /\
  (forall e, e <> O -> Stats.rate e 0 = Stats.PosInf) /\
  Stats.spot_inv Stats.default_strategy_statistics /\
  (forall its s, Stats.spot_inv s -> Stats.spot_inv (Stats.run_iterations its s)) /\
  (forall o now,
     Stats.f_success_rate (Stats.update_execution_statistics o now Stats.default_futures_stats)
       = Stats.PosInf).
Proof.
  split; [reflexivity|]. split; [reflexivity|].
  split; [exact rate_nonzero|]. split; [exact rate_zero|].
  split; [split; [simpl; lia | eexists; reflexivity]|].
  split.
  - induction its as [|[[now up] batch] r IH]; intros s Hs; simpl; [exact Hs|].
    apply IH, run_iteration_inv, Hs.
  - intros o now. apply rate_zero. discriminate.
Qed.

(** Claim C9 (counterexample).  One opportunity detected and executed: the
    rate stored is [100], not [executed / detected = 1]; and a futures
    execution on fresh statistics stores +infinity. *)
Lemma success_rate_is_percentage :
  (exists r,
     Stats.success_rate
       (Stats.update_success_statistics sample_spot_opportunity 0
          (Stats.add_detected 1 Stats.default_strategy_statistics)) = Stats.Fin r /\
     r == 100 /\ ~ (r == Stats.q_of_nat 1 / Stats.q_of_nat 1)) /\
  Stats.f_success_rate
    (Stats.update_execution_statistics sample_futures_opportunity 0 Stats.default_futures_stats)
    = Stats.PosInf.
Proof.
  split.
  - eexists. split; [vm_compute; reflexivity|].
    split; [vm_compute; reflexivity | vm_compute; discriminate].
  - vm_compute. reflexivity.
Qed.

(** Claim C7 (counterexample).  With the default configuration (three
    attempts) and a 0.05 BTCUSDT position, a buy of 1 BTCUSDT is rejected by
    the risk check; [place_order_with_retry] nevertheless makes a second
    (and third) attempt, whose failure it logs. *)
Lemma risk_rejection_is_retried :
  exists s',
    Live.place_order_with_retry sample_venues Binance sample_buy (sample_state Cfg.default)
      = (Live.Done (Live.Err RiskManagement), s') /\
    In (Live.AttemptFailed 2 RiskManagement) (Live.events s').
Proof.
  eexists. split; [vm_compute; reflexivity|].
  vm_compute. auto 10.
Qed.

(** ** Instances at concrete inputs *)

Ltac by_eval := vm_compute; first [reflexivity | let H := fresh in intro H; discriminate H].

(** C1 at the books of the spec's example, Bybit holding the higher bid. *)
Lemma spot_detect_single_opportunity_witness :
  exists o,
    Spot.detect_opportunities sample_cfg 0
      (Some (fst (stored_pair Bybit bybit_book binance_book)))
      (Some (snd (stored_pair Bybit bybit_book binance_book))) = [o] /\
    Spot.spread_bps o == 20 /\ Spot.expected_profit o == 100.
Proof.
  pose proof (spot_detect_single_opportunity sample_cfg 0 Bybit bybit_book binance_book
    50100 1 50000 1 eq_refl ltac:(by_eval) ltac:(by_eval) eq_refl ltac:(by_eval)
    eq_refl ltac:(by_eval) eq_refl ltac:(by_eval) eq_refl ltac:(by_eval)
    ltac:(intros a b Ha Hb; vm_compute in Ha, Hb;
          injection Ha as <-; injection Hb as <-; by_eval)) as H.
  destruct H as (o & H1 & H2 & _ & H4 & _).
  exists o. split; [exact H1|]. split; assumption.
Defined.

(** C2 at the sample books: the futures and the spot opportunity found. *)
Lemma detect_profit_fee_adjusted_witness :
  (exists o,
     In o (Futures.detect_opportunities sample_cfg 0 ["BTCUSDT"%string] sample_market_data) /\
     0 < Futures.expected_profit o) /\
  (exists o,
     In o (Spot.detect_opportunities sample_cfg 0 (Some binance_book) (Some bybit_book)) /\
     0 < Spot.expected_profit o).
Proof.
  split.
  - remember (Futures.detect_opportunities sample_cfg 0 ["BTCUSDT"%string] sample_market_data)
      as L eqn:E.
    destruct L as [|o r]; [vm_compute in E; discriminate E|].
    assert (Hin : In o (Futures.detect_opportunities sample_cfg 0 ["BTCUSDT"%string]
                          sample_market_data)) by (rewrite <- E; left; reflexivity).
    exists o. split; [left; reflexivity|].
    destruct (proj1 detect_profit_fee_adjusted _ _ _ _ _ Hin) as (_ & _ & _ & _ & H).
    exact H.
  - remember (Spot.detect_opportunities sample_cfg 0 (Some binance_book) (Some bybit_book))
      as L eqn:E.
    destruct L as [|o r]; [vm_compute in E; discriminate E|].
    assert (Hin : In o (Spot.detect_opportunities sample_cfg 0 (Some binance_book)
                          (Some bybit_book))) by (rewrite <- E; left; reflexivity).
    exists o. split; [left; reflexivity|].
    destruct (proj2 detect_profit_fee_adjusted _ _ _ _ _ Hin) as [_ H].
    apply H. by_eval.
Defined.

(** C3 at the sample books. *)
Lemma detect_quantity_capped_witness :
  exists o,
    In o (Spot.detect_opportunities sample_cfg 0 (Some binance_book) (Some bybit_book)) /\
    Cfg.min_order_size (Cfg.execution sample_cfg) <= Spot.quantity o /\
    Spot.quantity o <= Cfg.max_position_size (Cfg.strategy sample_cfg).
Proof.
  remember (Spot.detect_opportunities sample_cfg 0 (Some binance_book) (Some bybit_book))
    as L eqn:E.
  destruct L as [|o r]; [vm_compute in E; discriminate E|].
  assert (Hin : In o (Spot.detect_opportunities sample_cfg 0 (Some binance_book)
                        (Some bybit_book))) by (rewrite <- E; left; reflexivity).
  exists o. split; [left; reflexivity|].
  destruct (proj1 detect_quantity_capped _ _ _ _ _ Hin) as (bn & bb & qa & qb & _ & _ & H).
  cbv zeta in H. destruct H as (_ & _ & _ & H1 & H2). split; assumption.
Defined.

(** C4 at the spec's scenario, and a small order that passes. *)
Lemma check_risk_limits_spec_witness :
  Live.check_risk_limits (sample_state Cfg.default) sample_buy = Live.Err RiskManagement /\
  Live.check_risk_limits (sample_state Cfg.default) small_buy = Live.Ok tt.
Proof.
  destruct check_risk_limits_spec as [Hiff Hscen]. split.
  - apply (Hscen (sample_state Cfg.default) sample_buy
             (Live.mkPosition Binance "BTCUSDT" (5#100) 50000 0 0));
      by_eval.
  - apply (proj2 (proj2 (Hiff (sample_state Cfg.default) small_buy))).
    intros [H | H]; vm_compute in H; discriminate H.
Defined.

(** C5 with two tracked orders, the Bybit one's cancel failing. *)
Lemma emergency_shutdown_best_effort_witness :
  exists s',
    Live.emergency_shutdown sample_venues (sample_state Cfg.default)
      = (Live.Done (Live.Ok tt), s') /\
    Live.emergency_shutdown_flag s' = true /\
    In (Live.CancelOrder Bybit "BTCUSDT" "o1") (Live.events s') /\
    In (Live.CancelOrder Binance "BTCUSDT" "o2") (Live.events s').
Proof.
  destruct (emergency_shutdown_best_effort sample_venues (sample_state Cfg.default))
    as (s' & H1 & H2 & _ & H4 & _).
  exists s'. split; [exact H1|]. split; [exact H2|]. split.
  - apply (H4 "o1"%string Bybit (sample_response "o1")); [simpl; auto | reflexivity].
  - apply (H4 "o2"%string Binance (sample_response "o2")); [simpl; auto | reflexivity].
Defined.

(** C6 at a configuration with no retry attempt. *)
Lemma place_order_with_retry_zero_attempts_panics_witness :
  Live.place_order_with_retry sample_venues Binance sample_buy (sample_state no_retry_cfg)
    = (Live.Panic, sample_state no_retry_cfg).
Proof.
  apply place_order_with_retry_zero_attempts_panics. reflexivity.
Defined.

(** C7 at the spec's risk scenario with three attempts. *)
Lemma risk_rejection_retried_without_venue_call_witness :
  Live.place_order_with_retry sample_venues Binance sample_buy (sample_state Cfg.default) =
    (Live.Done (Live.Err RiskManagement),
     Live.set_events (sample_state Cfg.default)
       (Live.events (sample_state Cfg.default) ++ retry_log RiskManagement 3 1 3)).
Proof.
  destruct (risk_rejection_retried_without_venue_call sample_venues (sample_state Cfg.default)
              Binance sample_buy eq_refl ltac:(by_eval)) as [_ H].
  apply H. simpl. lia.
Defined.

(** C8 on a fresh simulator: buy 1 at 50000, sell 1 at 50001. *)
Lemma dry_run_round_trip_pnl_witness :
  exists rb ex1, DryRun.execute_order sample_draws sample_buy (DryRun.new Cfg.default)
                   = (Live.Ok rb, ex1) /\
                 OrderResponse.filled_quantity rb = 1.
Proof.
  destruct (dry_run_round_trip_pnl (DryRun.new Cfg.default) "BTCUSDT" 1 50000 50001 GTC GTC
              None None sample_draws sample_draws eq_refl eq_refl ltac:(by_eval))
    as (rb & rs & ex1 & ex2 & eb & es & H1 & _ & H3 & _).
  exists rb, ex1. split; assumption.
Defined.

(** C9 at the sample loop. *)
Lemma success_rate_unguarded_percentage_witness :
  Stats.rate 2 3 = Stats.Fin (Stats.q_of_nat 2 / Stats.q_of_nat 3 * 100) /\
  Stats.rate 1 0 = Stats.PosInf /\
  Stats.spot_inv (Stats.run_iterations sample_iterations Stats.default_strategy_statistics).
Proof.
  destruct success_rate_unguarded_percentage as (_ & _ & H3 & H4 & _ & H6 & _).
  split; [apply H3; discriminate|]. split; [apply H4; discriminate|].
  apply H6. split; [simpl; lia | eexists; reflexivity].
Defined.

(** C10: a shut-down coordinator, the spec's risk rejection, and a
    connector failure. *)
Lemma place_order_rejection_frame_witness :
  Live.place_order sample_venues Binance sample_buy (Live.set_shutdown (sample_state Cfg.default) true)
    = (Live.Done (Live.Err Trading), Live.set_shutdown (sample_state Cfg.default) true) /\
  Live.place_order sample_venues Binance sample_buy (sample_state Cfg.default)
    = (Live.Done (Live.Err RiskManagement), sample_state Cfg.default) /\
  exists s', Live.place_order sample_venues Binance small_buy (sample_state Cfg.default)
               = (Live.Done (Live.Err Connection), s') /\
             Live.failed_orders (Live.statistics s') = 1%nat.
Proof.
  destruct (place_order_rejection_frame sample_venues
              (Live.set_shutdown (sample_state Cfg.default) true) Binance sample_buy) as [H1 _].
  destruct (place_order_rejection_frame sample_venues (sample_state Cfg.default)
              Binance sample_buy) as [_ [H2 _]].
  destruct (place_order_rejection_frame sample_venues (sample_state Cfg.default)
              Binance small_buy) as [_ [_ H3]].
  split; [apply H1; reflexivity|]. split; [apply H2; by_eval|].
  destruct (H3 Connection eq_refl ltac:(by_eval) eq_refl eq_refl) as (s' & E & F & _).
  exists s'. split; [exact E|]. rewrite F. reflexivity.
Defined.

(** * Further properties of the code *)

(** ** Maps *)

Lemma lookup_insert {V} (k k' : string) (v : V) m :
  lookup k (insert k' v m) = if String.eqb k k' then Some v else lookup k m.
Proof.
  induction m as [|[k2 v2] r IH]; simpl.
  - destruct (String.eqb k k'); reflexivity.
  - destruct (String.eqb k' k2) eqn:E2.
    + apply String.eqb_eq in E2. subst k2. simpl.
      destruct (String.eqb k k'); reflexivity.
    + simpl. rewrite IH.
      destruct (String.eqb k k2) eqn:E; [|reflexivity].
      destruct (String.eqb k k') eqn:E'; [|reflexivity].
      apply String.eqb_eq in E. apply String.eqb_eq in E'. subst.
      rewrite String.eqb_refl in E2. discriminate.
Qed.

Lemma lookup_in_nodup {V} (l : list (string * V)) k v :
  NoDup (map fst l) -> In (k, v) l -> lookup k l = Some v.
Proof.
  induction l as [|[k2 v2] r IH]; simpl; [tauto|].
  intros Hnd [E | Hin]; inversion Hnd as [|x y Hnin Hnd']; subst.
  - injection E as <- <-. rewrite String.eqb_refl. reflexivity.
  - destruct (String.eqb k k2) eqn:E.
    + apply String.eqb_eq in E. subst k2.
      exfalso. apply Hnin. apply (in_map fst r (k, v)). exact Hin.
    + apply IH; assumption.
Qed.

Lemma Exchange_eqb_spec a b : Exchange_eqb a b = true <-> a = b.
Proof. destruct a, b; simpl; split; congruence. Qed.

Lemma exchange_data_entry_insert ex ex' sym book md :
  Futures.exchange_data ex' (entry_insert ex sym book md) =
    if Exchange_eqb ex' ex
    then Some (insert sym book (unwrap_or (Futures.exchange_data ex md) []))
    else Futures.exchange_data ex' md.
Proof.
  induction md as [|[e d] r IH]; simpl.
  - destruct (Exchange_eqb ex' ex); reflexivity.
  - destruct (Exchange_eqb ex e) eqn:E.
    + apply Exchange_eqb_spec in E. subst e. simpl.
      destruct (Exchange_eqb ex' ex); reflexivity.
    + simpl. rewrite IH.
      destruct (Exchange_eqb ex' e) eqn:E1, (Exchange_eqb ex' ex) eqn:E2; try reflexivity.
      apply Exchange_eqb_spec in E1. apply Exchange_eqb_spec in E2. subst.
      revert E. match goal with |- Exchange_eqb ?x ?x = false -> _ =>
        destruct x; discriminate end.
Qed.

(** ** The execution simulator *)

(** [Portfolio::update_position] and [update_balance] add [delta] to the
    entry read by [get_position] / [get_balance] (a missing entry counts as
    0.0) and leave every other entry as it was. *)
Theorem portfolio_update_get :
  forall (p : DryRun.Portfolio) key key' delta,
    DryRun.get_position (DryRun.update_position p key delta) key' =
      (if String.eqb key' key then DryRun.get_position p key + delta
       else DryRun.get_position p key') /\
    DryRun.get_balance (DryRun.update_balance p key delta) key' =
      (if String.eqb key' key then DryRun.get_balance p key + delta
       else DryRun.get_balance p key') /\
    DryRun.get_balance (DryRun.update_position p key delta) key' = DryRun.get_balance p key' /\
    DryRun.get_position (DryRun.update_balance p key delta) key' = DryRun.get_position p key'.
Proof.
  intros p key key' delta.
  unfold DryRun.get_position, DryRun.get_balance, DryRun.update_position,
    DryRun.update_balance; simpl.
  rewrite !lookup_insert.
  split; [|split; [|split; reflexivity]];
    destruct (String.eqb key' key) eqn:E; try reflexivity;
    apply String.eqb_eq in E; subst key'; reflexivity.
Qed.

Lemma pnl_balances_zero init l acc :
  NoDup (map fst init) -> (forall kv, In kv l -> In kv init) ->
  fold_left (fun acc cb =>
    let initial := unwrap_or (lookup (fst cb) init) 0 in
    if (String.eqb (fst cb) "USDT" || String.eqb (fst cb) "USD")%bool
    then acc + (snd cb - initial) else acc) l acc == acc.
Proof.
  intros Hnd. revert acc. induction l as [|[c b] r IH]; intros acc Hsub; simpl; [reflexivity|].
  rewrite (lookup_in_nodup init c b Hnd (Hsub (c, b) (or_introl eq_refl))). simpl.
  destruct (_ || _)%bool.
  - rewrite IH by (intros kv H; apply Hsub; right; exact H). ring.
  - apply IH. intros kv H; apply Hsub; right; exact H.
Qed.

(** A portfolio made by [Portfolio::new] (currencies listed once, as in a
    [HashMap]) has a PnL of 0.0 whatever the current prices. *)
Theorem portfolio_new_pnl_zero :
  forall init prices,
    NoDup (map fst init) ->
    DryRun.calculate_pnl (DryRun.Portfolio_new init) prices == 0.
Proof.
  intros init prices Hnd. unfold DryRun.calculate_pnl, DryRun.Portfolio_new. simpl.
  apply pnl_balances_zero; [exact Hnd | tauto].
Qed.

Lemma step_keeps_setup ex op :
  DryRun.config (DryRun.step ex op) = DryRun.config ex /\
  DryRun.exec_config (DryRun.step ex op) = DryRun.exec_config ex /\
  DryRun.initial_balances (DryRun.portfolio (DryRun.step ex op)) =
    DryRun.initial_balances (DryRun.portfolio ex).
Proof.
  destruct op as [d order|exch book|]; simpl.
  - unfold DryRun.execute_order.
    destruct (DryRun.should_reject_order _ _); simpl; [tauto|].
    unfold DryRun.update_portfolio.
    destruct (LimitOrder.side order); simpl; tauto.
  - tauto.
  - tauto.
Qed.

(** Whatever sequence of [execute_order], [update_market_data] and [reset]
    calls a new executor goes through, [reset] brings it back to exactly
    the state [DryRunExecutor::new] built: the same portfolio, empty
    history, metrics, market data and prices; [get_results] then reports
    no trade and a PnL of 0.0. *)
Theorem dry_run_reset_restores_new :
  forall cfg ops,
    DryRun.reset (DryRun.run_ops (DryRun.new cfg) ops) = DryRun.new cfg /\
    fst (DryRun.get_results (DryRun.reset (DryRun.run_ops (DryRun.new cfg) ops))) = O /\
    snd (DryRun.get_results (DryRun.reset (DryRun.run_ops (DryRun.new cfg) ops))) == 0.
Proof.
  intros cfg ops.
  assert (Hs : forall ex, DryRun.config (DryRun.run_ops ex ops) = DryRun.config ex /\
            DryRun.exec_config (DryRun.run_ops ex ops) = DryRun.exec_config ex /\
            DryRun.initial_balances (DryRun.portfolio (DryRun.run_ops ex ops)) =
              DryRun.initial_balances (DryRun.portfolio ex)).
  { unfold DryRun.run_ops. induction ops as [|op r IH]; intros ex; simpl; [tauto|].
    destruct (IH (DryRun.step ex op)) as (H1 & H2 & H3).
    destruct (step_keeps_setup ex op) as (K1 & K2 & K3).
    rewrite H1, H2, H3, K1, K2, K3. tauto. }
  destruct (Hs (DryRun.new cfg)) as (H1 & H2 & H3).
  assert (E : DryRun.reset (DryRun.run_ops (DryRun.new cfg) ops) = DryRun.new cfg).
  { unfold DryRun.reset. rewrite H1, H2, H3. reflexivity. }
  rewrite E. split; [reflexivity|]. split; [reflexivity|].
  unfold DryRun.get_results, DryRun.new. simpl snd.
  apply portfolio_new_pnl_zero. vm_compute.
  repeat constructor; simpl; intuition discriminate.
Qed.

(** The only error [execute_order] returns is its simulated rejection: it
    returns an error exactly when the rejection probability is positive
    and the draw falls below it, the error is then [Trading], and the
    executor is left as it was. *)
Theorem execute_order_rejection :
  forall d order (ex : DryRun.DryRunExecutor) e ex',
    let rp := DryRun.rejection_probability (DryRun.exec_config ex) in
    DryRun.execute_order d order ex = (Live.Err e, ex') <->
      (0 < rp /\ DryRun.reject_draw d < rp) /\ e = Trading /\ ex' = ex.
Proof.
  intros d order ex e ex' rp. unfold DryRun.execute_order, DryRun.should_reject_order.
  fold rp.
  destruct (Qle_bool rp 0) eqn:E1; [|destruct (qlt (DryRun.reject_draw d) rp) eqn:E2].
  - split; [intro H; discriminate H|].
    intros [[H1 _] _]. apply Qle_bool_iff in E1. exfalso. exact (Qlt_not_le _ _ H1 E1).
  - split.
    + intro H. injection H as <- <-. split; [split|split; reflexivity].
      * apply Qle_bool_false. exact E1.
      * apply qlt_true. exact E2.
    + intros (_ & -> & ->). reflexivity.
  - split; [intro H; discriminate H|].
    intros [[_ H2] _]. apply qlt_true in H2. congruence.
Qed.

Lemma Qle_mult_1_plus a f : 0 <= a -> 0 <= f -> a <= a * (1 + f).
Proof.
  intros Ha Hf. rewrite Qle_minus_iff.
  setoid_replace (a * (1 + f) + - a) with (a * f) by ring.
  apply Qmult_le_0_compat; assumption.
Qed.

Lemma Qle_mult_1_minus a f : 0 <= a -> 0 <= f -> a * (1 - f) <= a.
Proof.
  intros Ha Hf. rewrite Qle_minus_iff.
  setoid_replace (a + - (a * (1 - f))) with (a * f) by ring.
  apply Qmult_le_0_compat; assumption.
Qed.

Lemma Qmult_1_minus_nonneg a f : 0 <= a -> f <= 1 -> 0 <= a * (1 - f).
Proof.
  intros Ha Hf. apply Qmult_le_0_compat; [exact Ha|].
  rewrite Qle_minus_iff in Hf.
  setoid_replace (1 - f) with (1 + - f) by ring. exact Hf.
Qed.

(** The simulator never fills a buy below its limit price nor a sell above
    it: slippage and market impact only move the price against the order,
    and the book check raises a buy to at least the best ask and lowers a
    sell to at most the best bid of the first book held for the symbol.
    (A buy limit below the ask is thus filled above its limit.) *)
Theorem execution_price_bounds :
  forall (ex : DryRun.DryRunExecutor) order d,
    0 <= LimitOrder.price order ->
    0 <= DryRun.slippage_draw d <= 1 ->
    (DryRun.simulate_market_impact (DryRun.exec_config ex) = true ->
       0 <= LimitOrder.quantity order * DryRun.market_impact_factor (DryRun.exec_config ex) <= 1) ->
    let p := DryRun.calculate_execution_price ex order d in
    match LimitOrder.side order with
    | Buy => LimitOrder.price order <= p /\
             forall book ask,
               DryRun.first_book (LimitOrder.symbol order) (DryRun.market_data ex) = Some book ->
               OrderBook.best_ask book = Some ask -> ask <= p
    | Sell => p <= LimitOrder.price order /\
              forall book bid,
                DryRun.first_book (LimitOrder.symbol order) (DryRun.market_data ex) = Some book ->
                OrderBook.best_bid book = Some bid -> p <= bid
    end.
Proof.
  intros ex order d Hp [Hd0 Hd1] Himp p. unfold p, DryRun.calculate_execution_price.
  set (p0 := LimitOrder.price order) in *.
  set (imp := LimitOrder.quantity order * DryRun.market_impact_factor (DryRun.exec_config ex)) in *.
  destruct (LimitOrder.side order).
  - set (p1 := if qlt 0 _ then p0 * (1 + DryRun.slippage_draw d) else p0).
    assert (H1 : p0 <= p1 /\ 0 <= p1).
    { unfold p1. destruct (qlt 0 _).
      - split; [apply Qle_mult_1_plus; assumption|].
        apply Qle_trans with p0; [assumption|apply Qle_mult_1_plus; assumption].
      - split; [apply Qle_refl|assumption]. }
    set (p2 := if DryRun.simulate_market_impact _ then p1 * (1 + imp) else p1).
    assert (H2 : p0 <= p2).
    { unfold p2. destruct (DryRun.simulate_market_impact _) eqn:Es.
      - destruct (Himp eq_refl) as [Hi0 _].
        apply Qle_trans with p1; [tauto|apply Qle_mult_1_plus; tauto].
      - tauto. }
    destruct (DryRun.first_book _ _) as [book|] eqn:Eb.
    + destruct (OrderBook.best_ask book) as [ask|] eqn:Ea.
      * split; [apply Qle_trans with p2; [exact H2|apply Q.le_max_l]|].
        intros book' ask' Eb' Ea'. injection Eb' as <-. rewrite Ea in Ea'.
        injection Ea' as <-. apply Q.le_max_r.
      * split; [exact H2|]. intros book' ask' Eb' Ea'. injection Eb' as <-. congruence.
    + split; [exact H2|]. intros book' ask' Eb'. discriminate.
  - set (p1 := if qlt 0 _ then p0 * (1 - DryRun.slippage_draw d) else p0).
    assert (H1 : p1 <= p0 /\ 0 <= p1).
    { unfold p1. destruct (qlt 0 _).
      - split; [apply Qle_mult_1_minus; assumption|].
        apply Qmult_1_minus_nonneg; assumption.
      - split; [apply Qle_refl|assumption]. }
    set (p2 := if DryRun.simulate_market_impact _ then p1 * (1 - imp) else p1).
    assert (H2 : p2 <= p0).
    { unfold p2. destruct (DryRun.simulate_market_impact _) eqn:Es.
      - destruct (Himp eq_refl) as [Hi0 _].
        apply Qle_trans with p1; [apply Qle_mult_1_minus; tauto|tauto].
      - tauto. }
    destruct (DryRun.first_book _ _) as [book|] eqn:Eb.
    + destruct (OrderBook.best_bid book) as [bid|] eqn:Ea.
      * split; [apply Qle_trans with p2; [apply Q.le_min_l|exact H2]|].
        intros book' bid' Eb' Ea'. injection Eb' as <-. rewrite Ea in Ea'.
        injection Ea' as <-. apply Q.le_min_r.
      * split; [exact H2|]. intros book' bid' Eb' Ea'. injection Eb' as <-. congruence.
    + split; [exact H2|]. intros book' bid' Eb'. discriminate.
Qed.

(** After an executed order the portfolio moves by the fill: a buy adds
    the filled quantity to the symbol's position and takes the notional at
    the execution price plus the fee off the USDT balance; a sell does the
    opposite and receives the notional minus the fee. The fee is what
    [total_fees] grows by (0.0 with fees disabled), no other position or
    balance changes, and [total_volume] grows by the fill at the order's
    limit price, not at the execution price. *)
Theorem execute_order_accounting :
  forall d order (ex ex' : DryRun.DryRunExecutor) r,
    DryRun.execute_order d order ex = (Live.Ok r, ex') ->
    let sym := LimitOrder.symbol order in
    let q := OrderResponse.filled_quantity r in
    let p := DryRun.calculate_execution_price ex order d in
    let fee := DryRun.total_fees (DryRun.metrics ex') - DryRun.total_fees (DryRun.metrics ex) in
    let pf := DryRun.portfolio ex in
    let pf' := DryRun.portfolio ex' in
    match LimitOrder.side order with
    | Buy => DryRun.get_position pf' sym == DryRun.get_position pf sym + q /\
             DryRun.get_balance pf' "USDT" == DryRun.get_balance pf "USDT" - (q * p + fee)
    | Sell => DryRun.get_position pf' sym == DryRun.get_position pf sym - q /\
              DryRun.get_balance pf' "USDT" == DryRun.get_balance pf "USDT" + (q * p - fee)
    end /\
    (forall s, s <> sym -> DryRun.get_position pf' s = DryRun.get_position pf s) /\
    (forall c, c <> "USDT"%string -> DryRun.get_balance pf' c = DryRun.get_balance pf c) /\
    (DryRun.enable_fees (DryRun.exec_config ex) = false -> fee == 0) /\
    DryRun.total_volume (DryRun.metrics ex') ==
      DryRun.total_volume (DryRun.metrics ex) + q * LimitOrder.price order.
Proof.
  intros d order ex ex' r H. unfold DryRun.execute_order in H.
  destruct (DryRun.should_reject_order _ _); [discriminate H|].
  injection H as <- <-. simpl.
  unfold DryRun.update_portfolio, DryRun.get_position, DryRun.get_balance,
    DryRun.update_balance, DryRun.update_position.
  destruct (LimitOrder.side order); simpl;
    unfold DryRun.get_position, DryRun.get_balance; simpl;
    rewrite !lookup_insert, !String.eqb_refl; simpl;
    (split; [split; ring|]); (split; [|split; [|split]]).
  all: try (intros s Hs; rewrite lookup_insert;
            destruct (String.eqb s _) eqn:E; [|reflexivity];
            apply String.eqb_eq in E; contradiction).
  all: try (intros Hf; rewrite Hf; ring).
  all: reflexivity.
Qed.

Lemma history_sum_app g h r :
  DryRun.history_sum g (h ++ [r]) == DryRun.history_sum g h + g r.
Proof. unfold DryRun.history_sum. rewrite fold_left_app. reflexivity. Qed.

Lemma q_of_nat_S_neq_0 n : inject_Z (Z.of_nat (S n)) == 0 -> False.
Proof.
  intros H. unfold Qeq in H. simpl in H. lia.
Qed.

Lemma step_metrics_consistent ex op :
  DryRun.metrics_consistent ex -> DryRun.metrics_consistent (DryRun.step ex op).
Proof.
  destruct op as [d order|exch book|]; simpl.
  - unfold DryRun.execute_order.
    destruct (DryRun.should_reject_order _ _); simpl; [tauto|].
    unfold DryRun.metrics_consistent; simpl.
    intros (H1 & H2).
    rewrite history_sum_app, length_app, <- H1, <- H2. simpl.
    rewrite Nat.add_1_r. split; reflexivity.
  - unfold DryRun.update_market_data, DryRun.metrics_consistent. simpl. tauto.
  - unfold DryRun.reset, DryRun.metrics_consistent. simpl. split; reflexivity.
Qed.

(** Whatever sequence of [execute_order], [update_market_data] and [reset]
    calls a new executor goes through, its metrics agree with its execution
    history: [total_orders] is the length of the history, and
    [total_volume] is the sum of filled quantity times price over it,
    added in history order (the additions [update_metrics] makes, one per
    history entry, in the same order). *)
Theorem dry_run_metrics_consistent :
  forall cfg ops, DryRun.metrics_consistent (DryRun.run_ops (DryRun.new cfg) ops).
Proof.
  intros cfg ops. unfold DryRun.run_ops.
  assert (H0 : DryRun.metrics_consistent (DryRun.new cfg)).
  { unfold DryRun.metrics_consistent; simpl. split; reflexivity. }
  revert H0. generalize (DryRun.new cfg) as ex.
  induction ops as [|op r IH]; intros ex H; simpl; [exact H|].
  apply IH. apply step_metrics_consistent. exact H.
Qed.

(** [update_market_data] stores the book under its exchange and symbol,
    where the pricing loop looks it up, and leaves every other
    (exchange, symbol) entry alone; it records the book's mid price as the
    symbol's current price when the book has both sides, and otherwise
    keeps the previous price. *)
Theorem update_market_data_lookup :
  forall exch book (ex : DryRun.DryRunExecutor) exch' sym,
    let ex' := DryRun.update_market_data exch book ex in
    lookup sym (unwrap_or (Futures.exchange_data exch' (DryRun.market_data ex')) []) =
      (if (Exchange_eqb exch' exch && String.eqb sym (OrderBook.symbol book))%bool
       then Some book
       else lookup sym (unwrap_or (Futures.exchange_data exch' (DryRun.market_data ex)) [])) /\
    lookup sym (DryRun.current_prices ex') =
      (if String.eqb sym (OrderBook.symbol book)
       then match OrderBook.mid_price book with
            | Some m => Some m
            | None => lookup sym (DryRun.current_prices ex)
            end
       else lookup sym (DryRun.current_prices ex)).
Proof.
  intros exch book ex exch' sym ex'. unfold ex', DryRun.update_market_data. simpl.
  rewrite exchange_data_entry_insert. split.
  - destruct (Exchange_eqb exch' exch) eqn:E; simpl; [|reflexivity].
    apply Exchange_eqb_spec in E. subst exch'.
    rewrite lookup_insert. reflexivity.
  - destruct (OrderBook.mid_price book) as [m|].
    + rewrite lookup_insert. reflexivity.
    + destruct (String.eqb sym _); reflexivity.
Qed.

(** ** The live coordinator *)

Lemma lookup_ex_insert_ex {V} (k k' : Exchange) (v : V) m :
  LiveHealth.lookup_ex k (LiveHealth.insert_ex k' v m) =
    if Exchange_eqb k k' then Some v else LiveHealth.lookup_ex k m.
Proof.
  induction m as [|[k2 v2] r IH]; simpl.
  - destruct (Exchange_eqb k k'); reflexivity.
  - destruct (Exchange_eqb k' k2) eqn:E2.
    + apply Exchange_eqb_spec in E2. subst k2. simpl.
      destruct (Exchange_eqb k k'); reflexivity.
    + simpl. rewrite IH.
      destruct (Exchange_eqb k k2) eqn:E; [|reflexivity].
      destruct (Exchange_eqb k k') eqn:E'; [|reflexivity].
      apply Exchange_eqb_spec in E. apply Exchange_eqb_spec in E'. subst.
      revert E2. match goal with |- Exchange_eqb ?x ?x = false -> _ => destruct x; discriminate end.
Qed.

Lemma lookup_ex_In {V} k (v : V) m :
  LiveHealth.lookup_ex k m = Some v -> In (k, v) m.
Proof.
  induction m as [|[k2 v2] r IH]; simpl; [discriminate|].
  destruct (Exchange_eqb k k2) eqn:E.
  - apply Exchange_eqb_spec in E. subst k2. intros H. injection H as <-. left. reflexivity.
  - intros H. right. apply IH. exact H.
Qed.

Lemma lookup_ex_connectivity (connected : Exchange -> bool) l c x :
  LiveHealth.lookup_ex x
    (fold_left (fun c exchange => LiveHealth.insert_ex exchange (connected exchange) c) l c) =
  if existsb (Exchange_eqb x) l then Some (connected x) else LiveHealth.lookup_ex x c.
Proof.
  revert c. induction l as [|y l IH]; intros c; simpl; [reflexivity|].
  rewrite IH, lookup_ex_insert_ex.
  destruct (Exchange_eqb x y) eqn:E; simpl.
  - apply Exchange_eqb_spec in E. subst y.
    destruct (existsb _ l); reflexivity.
  - reflexivity.
Qed.

Lemma all_connected_In conns k b :
  LiveHealth.all_connected conns = true -> In (k, b) conns -> b = true.
Proof.
  unfold LiveHealth.all_connected. rewrite forallb_forall.
  intros H Hin. exact (H (k, b) Hin).
Qed.

Lemma lookup_remove {V} k k' (m : list (string * V)) :
  lookup k (remove k' m) = if String.eqb k k' then None else lookup k m.
Proof.
  unfold remove. induction m as [|[k2 v2] r IH]; simpl.
  - destruct (String.eqb k k'); reflexivity.
  - destruct (String.eqb k' k2) eqn:E2; simpl.
    + rewrite IH. apply String.eqb_eq in E2. subst k2.
      destruct (String.eqb k k'); reflexivity.
    + destruct (String.eqb k k2) eqn:E.
      * apply String.eqb_eq in E. subst k2.
        destruct (String.eqb k k') eqn:E'; [|reflexivity].
        apply String.eqb_eq in E'. subst k'. rewrite String.eqb_refl in E2. discriminate.
      * exact IH.
Qed.

Lemma update_statistics_consistent t b r now st :
  stats_consistent st -> stats_consistent (Live.update_statistics t b r now st).
Proof.
  unfold stats_consistent, Live.update_statistics. simpl. intros [H1 _].
  split.
  - destruct b; simpl; lia.
  - field. intros Hz. exact (q_of_nat_S_neq_0 _ Hz).
Qed.

(** Every way out of [place_order] either leaves the statistics alone or
    passes them through [update_statistics] once. *)
Lemma place_order_statistics venues ex order (s : Live.LiveState) :
  Live.statistics (snd (Live.place_order venues ex order s)) = Live.statistics s \/
  exists t b r now,
    Live.statistics (snd (Live.place_order venues ex order s)) =
      Live.update_statistics t b r now (Live.statistics s).
Proof.
  unfold Live.place_order, Live.bind, Live.get. simpl.
  destruct (Live.emergency_shutdown_flag s); [left; reflexivity|].
  destruct (Live.check_risk_limits s order); [|left; reflexivity].
  destruct (Live.has_connector ex s); simpl; [|left; reflexivity].
  destruct (Live.place_reply venues _ ex order); simpl; right; do 4 eexists; reflexivity.
Qed.

Lemma retry_loop_statistics venues ex order max_retries :
  forall remaining attempt_no last_error (s : Live.LiveState),
    stats_consistent (Live.statistics s) ->
    stats_consistent (Live.statistics
      (snd (Live.retry_loop venues ex order max_retries attempt_no remaining last_error s))).
Proof.
  induction remaining as [|r IH]; intros attempt_no last_error s Hs; simpl.
  - destruct last_error; exact Hs.
  - unfold Live.bind at 1, Live.attempt.
    pose proof (place_order_statistics venues ex order s) as Hp.
    destruct (Live.place_order venues ex order s) as [o s1] eqn:E. simpl in Hp.
    assert (Hs1 : stats_consistent (Live.statistics s1)).
    { destruct Hp as [Hp | (t & b & rr & now & Hp)]; rewrite Hp;
        [exact Hs | apply update_statistics_consistent; exact Hs]. }
    destruct o as [[a|e]|]; simpl; try exact Hs1.
    unfold Live.bind, Live.emit, Live.modify. simpl.
    destruct (Nat.ltb attempt_no max_retries); simpl; apply IH; exact Hs1.
Qed.

Lemma cancel_all_statistics venues orders (s : Live.LiveState) :
  Live.statistics (snd (Live.cancel_all venues orders s)) = Live.statistics s.
Proof.
  revert s. induction orders as [|[id [ex resp]] rest IH]; intro s; simpl; [reflexivity|].
  unfold Live.bind at 1, Live.attempt.
  assert (Hc : Live.statistics (snd (Live.cancel_order venues ex (OrderResponse.symbol resp) id s))
               = Live.statistics s).
  { unfold Live.cancel_order, Live.bind, Live.get. simpl.
    destruct (Live.has_connector ex s); simpl; [|reflexivity].
    destruct (Live.cancel_reply venues _ _ _ _); reflexivity. }
  destruct (Live.cancel_order venues ex (OrderResponse.symbol resp) id s) as [o s1].
  simpl in Hc. destruct o; simpl; [rewrite IH|]; exact Hc.
Qed.

Lemma disconnect_all_statistics venues exs (s : Live.LiveState) :
  Live.statistics (snd (Live.disconnect_all venues exs s)) = Live.statistics s.
Proof.
  revert s. induction exs as [|ex rest IH]; intro s; simpl; [reflexivity|].
  unfold Live.bind, Live.now_index, Live.get, Live.ret, Live.emit, Live.modify. simpl.
  rewrite IH. reflexivity.
Qed.

(** Whatever the venues answer, [place_order_with_retry] and
    [emergency_shutdown] keep the execution statistics consistent: the
    total order count is the number of successful plus failed orders, and
    the success rate is the successful share of the total, in percent. *)
Theorem live_statistics_consistent :
  forall (venues : Live.Venues) ex order (s : Live.LiveState),
    stats_consistent (Live.statistics s) ->
    stats_consistent (Live.statistics (snd (Live.place_order_with_retry venues ex order s))) /\
    stats_consistent (Live.statistics (snd (Live.emergency_shutdown venues s))).
Proof.
  intros venues ex order s Hs. split.
  - unfold Live.place_order_with_retry, Live.bind at 1, Live.get.
    apply retry_loop_statistics. exact Hs.
  - unfold Live.emergency_shutdown, Live.bind, Live.modify, Live.get. simpl.
    pose proof (cancel_all_statistics venues (Live.active_orders s) (Live.set_shutdown s true)) as Hc.
    destruct (Live.cancel_all venues _ _) as [o s1]. simpl in Hc.
    destruct o as [[u|e]|]; simpl; try (rewrite Hc; exact Hs).
    pose proof (disconnect_all_statistics venues (Live.connectors s1) s1) as Hd.
    destruct (Live.disconnect_all venues _ s1) as [o2 s2]. simpl in Hd.
    destruct o2 as [[u2|e2]|]; simpl; rewrite Hd, Hc; exact Hs.
Qed.

(** A successful [place_order] tracks the new order under the exchange's
    order id, and a successful [cancel_order] stops tracking its id; both
    leave the other tracked orders as they were. *)
Theorem active_orders_place_cancel :
  forall (venues : Live.Venues) (s : Live.LiveState),
    (forall ex order r s',
       Live.place_order venues ex order s = (Live.Done (Live.Ok r), s') ->
       lookup (OrderResponse.order_id r) (Live.active_orders s') = Some (ex, r) /\
       forall id, id <> OrderResponse.order_id r ->
         lookup id (Live.active_orders s') = lookup id (Live.active_orders s)) /\
    (forall ex symbol order_id r s',
       Live.cancel_order venues ex symbol order_id s = (Live.Done (Live.Ok r), s') ->
       lookup order_id (Live.active_orders s') = None /\
       forall id, id <> order_id ->
         lookup id (Live.active_orders s') = lookup id (Live.active_orders s)).
Proof.
  intros venues s. split.
  - intros ex order r s' H. unfold Live.place_order, Live.bind, Live.get in H. simpl in H.
    destruct (Live.emergency_shutdown_flag s); [discriminate H|].
    destruct (Live.check_risk_limits s order); [|discriminate H].
    destruct (Live.has_connector ex s); simpl in H; [|discriminate H].
    destruct (Live.place_reply venues _ ex order) as [resp|e]; simpl in H; [|discriminate H].
    injection H as <- <-. simpl. rewrite !lookup_insert, String.eqb_refl.
    split; [reflexivity|].
    intros id Hid. rewrite lookup_insert.
    destruct (String.eqb id (OrderResponse.order_id resp)) eqn:E; [|reflexivity].
    apply String.eqb_eq in E. contradiction.
  - intros ex symbol order_id r s' H. unfold Live.cancel_order, Live.bind, Live.get in H.
    simpl in H.
    destruct (Live.has_connector ex s); simpl in H; [|discriminate H].
    destruct (Live.cancel_reply venues _ ex symbol order_id) as [resp|e]; simpl in H;
      [|discriminate H].
    injection H as <- <-. simpl. rewrite !lookup_remove, String.eqb_refl.
    split; [reflexivity|].
    intros id Hid. rewrite lookup_remove.
    destruct (String.eqb id order_id) eqn:E; [|reflexivity].
    apply String.eqb_eq in E. contradiction.
Qed.


(** [LiveTradingExecutor::new] refuses a configuration whose maximum
    position size or minimum order size is not positive, with a [Config]
    error; otherwise it builds an executor that is not connected, lists no
    connected exchange, has no connector and tracks no order. *)
Theorem live_new_validates_config :
  forall cfg now,
    match LiveHealth.new cfg now with
    | Live.Err err =>
        err = Config /\
        (Cfg.max_position_size (Cfg.strategy cfg) <= 0 \/
         Cfg.min_order_size (Cfg.execution cfg) <= 0)
    | Live.Ok e =>
        0 < Cfg.max_position_size (Cfg.strategy cfg) /\
        0 < Cfg.min_order_size (Cfg.execution cfg) /\
        LiveHealth.is_connected e = false /\
        LiveHealth.get_connected_exchanges e = [] /\
        Live.connectors (LiveHealth.state e) = [] /\
        Live.active_orders (LiveHealth.state e) = [] /\
        Live.emergency_shutdown_flag (LiveHealth.state e) = false
    end.
Proof.
  intros cfg now. unfold LiveHealth.new, LiveHealth.validate_config.
  destruct (Qle_bool (Cfg.max_position_size (Cfg.strategy cfg)) 0) eqn:E1.
  - split; [reflexivity|]. left. apply Qle_bool_iff. exact E1.
  - destruct (Qle_bool (Cfg.min_order_size (Cfg.execution cfg)) 0) eqn:E2.
    + split; [reflexivity|]. right. apply Qle_bool_iff. exact E2.
    + apply Qle_bool_false in E1. apply Qle_bool_false in E2.
      repeat split; assumption.
Qed.

Lemma connect_loop_fails connect x rest e :
  LiveHealth.connect_loop connect (x :: rest) e =
    (Live.Err Config,
     LiveHealth.mkExecutor (LiveHealth.state e)
       (LiveHealth.set_connections (LiveHealth.health e)
          (LiveHealth.is_healthy (LiveHealth.health e))
          (LiveHealth.insert_ex x false
             (LiveHealth.exchange_connections (LiveHealth.health e))))).
Proof. reflexivity. Qed.

(** [connect_to_exchanges] always fails with a [Config] error, whatever
    the venues would answer: [create_connector] cannot build the first
    connector (Binance), so the loop records Binance as disconnected and
    returns before anything else; no connector is added, the health flag
    is not recomputed and no other exchange's entry changes. *)
Theorem connect_to_exchanges_fails :
  forall connect (e : LiveHealth.Executor),
    let e' := snd (LiveHealth.connect_to_exchanges connect e) in
    fst (LiveHealth.connect_to_exchanges connect e) = Live.Err Config /\
    LiveHealth.state e' = LiveHealth.state e /\
    LiveHealth.is_connected e' = LiveHealth.is_connected e /\
    LiveHealth.lookup_ex Binance (LiveHealth.exchange_connections (LiveHealth.health e')) =
      Some false /\
    LiveHealth.lookup_ex Bybit (LiveHealth.exchange_connections (LiveHealth.health e')) =
      LiveHealth.lookup_ex Bybit (LiveHealth.exchange_connections (LiveHealth.health e)).
Proof.
  intros connect e e'. unfold e', LiveHealth.connect_to_exchanges.
  rewrite connect_loop_fails. simpl.
  rewrite !lookup_ex_insert_ex. simpl. repeat split.
Qed.

(** [check_connectivity] records, for every exchange with a connector,
    what that connector reports, keeps the other entries, and succeeds
    exactly when every recorded entry is connected, which is then what
    [is_connected] reports; so it never succeeds while a connector reports
    a lost connection. *)
Theorem check_connectivity_spec :
  forall connected now (e : LiveHealth.Executor),
    let r := fst (LiveHealth.check_connectivity connected now e) in
    let e' := snd (LiveHealth.check_connectivity connected now e) in
    (forall x,
       LiveHealth.lookup_ex x (LiveHealth.exchange_connections (LiveHealth.health e')) =
         if Live.has_connector x (LiveHealth.state e) then Some (connected x)
         else LiveHealth.lookup_ex x (LiveHealth.exchange_connections (LiveHealth.health e))) /\
    (r = Live.Ok tt <->
       forall x b, In (x, b) (LiveHealth.exchange_connections (LiveHealth.health e')) -> b = true) /\
    (r = Live.Ok tt <-> LiveHealth.is_connected e' = true) /\
    (r <> Live.Ok tt -> r = Live.Err Connection) /\
    (forall x, Live.has_connector x (LiveHealth.state e) = true -> connected x = false ->
       r = Live.Err Connection).
Proof.
  intros connected now e r e'.
  assert (Hl : forall x,
    LiveHealth.lookup_ex x (LiveHealth.exchange_connections (LiveHealth.health e')) =
      if Live.has_connector x (LiveHealth.state e) then Some (connected x)
      else LiveHealth.lookup_ex x (LiveHealth.exchange_connections (LiveHealth.health e))).
  { intros x. unfold e', LiveHealth.check_connectivity. simpl.
    rewrite lookup_ex_connectivity. reflexivity. }
  assert (Hall : r = Live.Ok tt <->
    LiveHealth.all_connected (LiveHealth.exchange_connections (LiveHealth.health e')) = true).
  { unfold r, e', LiveHealth.check_connectivity. simpl.
    destruct (LiveHealth.all_connected _); split; congruence. }
  assert (Herr : r <> Live.Ok tt -> r = Live.Err Connection).
  { unfold r, LiveHealth.check_connectivity. simpl.
    destruct (LiveHealth.all_connected _); [congruence|reflexivity]. }
  split; [exact Hl|]. split; [|split; [|split; [exact Herr|]]].
  - rewrite Hall. unfold LiveHealth.all_connected. rewrite forallb_forall.
    split; [intros H x b Hin; exact (H (x, b) Hin) | intros H [x b] Hin; exact (H x b Hin)].
  - rewrite Hall. unfold LiveHealth.is_connected, e', LiveHealth.check_connectivity. simpl.
    reflexivity.
  - intros x Hc Hx. apply Herr. intros Hok. apply Hall in Hok.
    specialize (Hl x). rewrite Hc in Hl. apply lookup_ex_In in Hl.
    pose proof (all_connected_In _ _ _ Hok Hl) as Hb. congruence.
Qed.

(** [handle_connection_error] counts exactly one more recent error and
    leaves the trading state alone. When the exchange has no connector it
    returns [Ok] all the same, with the exchange marked disconnected and
    the system unhealthy; with a connector, a successful reconnection
    marks the exchange connected, and a failed one returns the error and
    leaves the system unhealthy. *)
Theorem handle_connection_error_spec :
  forall connect exchange (e : LiveHealth.Executor),
    let r := fst (LiveHealth.handle_connection_error connect exchange e) in
    let e' := snd (LiveHealth.handle_connection_error connect exchange e) in
    let conns' := LiveHealth.exchange_connections (LiveHealth.health e') in
    LiveHealth.recent_errors (LiveHealth.health e') =
      S (LiveHealth.recent_errors (LiveHealth.health e)) /\
    LiveHealth.state e' = LiveHealth.state e /\
    (Live.has_connector exchange (LiveHealth.state e) = false ->
       r = Live.Ok tt /\ LiveHealth.is_connected e' = false /\
       LiveHealth.lookup_ex exchange conns' = Some false) /\
    (Live.has_connector exchange (LiveHealth.state e) = true -> connect exchange = Live.Ok tt ->
       r = Live.Ok tt /\ LiveHealth.lookup_ex exchange conns' = Some true) /\
    (forall err, Live.has_connector exchange (LiveHealth.state e) = true ->
       connect exchange = Live.Err err ->
       r = Live.Err err /\ LiveHealth.is_connected e' = false /\
       LiveHealth.lookup_ex exchange conns' = Some false).
Proof.
  intros connect exchange e r e' conns'.
  unfold conns', e', r, LiveHealth.handle_connection_error.
  destruct (Live.has_connector exchange (LiveHealth.state e)) eqn:Hc.
  - destruct (connect exchange) as [u|err] eqn:Hk; simpl.
    + rewrite lookup_ex_insert_ex. destruct exchange; simpl.
      all: repeat split; try discriminate; intros; congruence.
    + rewrite lookup_ex_insert_ex. destruct exchange; simpl.
      all: repeat split; try discriminate; intros; congruence.
  - simpl. rewrite lookup_ex_insert_ex. destruct exchange; simpl.
    all: repeat split; discriminate.
Qed.


Lemma place_order_no_connector venues ex order (s : Live.LiveState) :
  Live.connectors s = [] ->
  exists e, Live.place_order venues ex order s = (Live.Done (Live.Err e), s).
Proof.
  intros Hs. unfold Live.place_order, Live.bind, Live.get. simpl.
  destruct (Live.emergency_shutdown_flag s); [eexists; reflexivity|].
  destruct (Live.check_risk_limits s order); [|eexists; reflexivity].
  unfold Live.has_connector. rewrite Hs. simpl. eexists; reflexivity.
Qed.

Lemma bind_emit {B} ev (k : unit -> Live.M B) (s : Live.LiveState) :
  Live.bind (Live.emit ev) k s = k tt (Live.set_events s (Live.events s ++ [ev])).
Proof. reflexivity. Qed.

Lemma bind_ret {A B} (a : A) (k : A -> Live.M B) (s : Live.LiveState) :
  Live.bind (Live.ret a) k s = k a s.
Proof. reflexivity. Qed.

Lemma bind_get {B} (k : Live.LiveState -> Live.M B) (s : Live.LiveState) :
  Live.bind Live.get k s = k s s.
Proof. reflexivity. Qed.

Lemma retry_loop_err_step venues ex order max_retries attempt_no rem last_error
    (s s' : Live.LiveState) e :
  Live.place_order venues ex order s = (Live.Done (Live.Err e), s') ->
  Live.retry_loop venues ex order max_retries attempt_no (S rem) last_error s =
  Live.retry_loop venues ex order max_retries (S attempt_no) rem (Some e)
    (if Nat.ltb attempt_no max_retries
     then Live.set_events (Live.set_events s' (Live.events s' ++ [Live.AttemptFailed attempt_no e]))
            ((Live.events s' ++ [Live.AttemptFailed attempt_no e]) ++
             [Live.Sleep (1000 * attempt_no)])
     else Live.set_events s' (Live.events s' ++ [Live.AttemptFailed attempt_no e])).
Proof.
  intros E. cbn [Live.retry_loop]. unfold Live.bind at 1, Live.attempt. rewrite E.
  cbv beta iota. rewrite bind_emit.
  destruct (Nat.ltb attempt_no max_retries); [rewrite bind_emit | rewrite bind_ret];
    reflexivity.
Qed.

Lemma retry_loop_no_connector venues ex order max_retries :
  forall remaining attempt_no last_error (s : Live.LiveState),
    Live.connectors s = [] ->
    let X := Live.retry_loop venues ex order max_retries attempt_no remaining last_error s in
    Live.connectors (snd X) = [] /\
    Live.active_orders (snd X) = Live.active_orders s /\
    (forall r, fst X <> Live.Done (Live.Ok r)) /\
    (forall ev, In ev (Live.events (snd X)) -> In ev (Live.events s) \/ is_venue_call ev = false).
Proof.
  induction remaining as [|rem IH]; intros attempt_no last_error s Hs X; unfold X.
  - cbn [Live.retry_loop].
    destruct last_error; simpl; (split; [exact Hs|]); (split; [reflexivity|]);
      (split; [intros r H; discriminate H|]); intros ev Hin; left; exact Hin.
  - destruct (place_order_no_connector venues ex order s Hs) as [e E].
    rewrite (retry_loop_err_step _ _ _ _ _ _ _ _ _ _ E).
    destruct (Nat.ltb attempt_no max_retries).
    + destruct (IH (S attempt_no) (Some e)
                  (Live.set_events (Live.set_events s (Live.events s ++ [Live.AttemptFailed attempt_no e]))
                     ((Live.events s ++ [Live.AttemptFailed attempt_no e]) ++
                      [Live.Sleep (1000 * attempt_no)])) Hs) as (H1 & H2 & H3 & H4).
      split; [exact H1|]. split; [exact H2|]. split; [exact H3|].
      intros ev Hin. destruct (H4 ev Hin) as [Hin'|Hv]; [|right; exact Hv].
      cbn [Live.events Live.set_events] in Hin'. rewrite <- app_assoc in Hin'.
      apply in_app_or in Hin'.
      destruct Hin' as [Hin'|Hin']; [left; exact Hin'|right].
      destruct Hin' as [<-|[<-|[]]]; reflexivity.
    + destruct (IH (S attempt_no) (Some e)
                  (Live.set_events s (Live.events s ++ [Live.AttemptFailed attempt_no e])) Hs)
        as (H1 & H2 & H3 & H4).
      split; [exact H1|]. split; [exact H2|]. split; [exact H3|].
      intros ev Hin. destruct (H4 ev Hin) as [Hin'|Hv]; [|right; exact Hv].
      cbn [Live.events Live.set_events] in Hin'. apply in_app_or in Hin'.
      destruct Hin' as [Hin'|Hin']; [left; exact Hin'|right].
      destruct Hin' as [<-|[]]; reflexivity.
Qed.

(** A live executor as [new] builds it and [connect_to_exchanges] then
    sets it up never trades: it reports not connected, lists no connected
    exchange, and every [check_connectivity] fails; [place_order_with_retry]
    never succeeds on it, tracks no order and makes no call to a venue (its
    only events are failed-attempt warnings and back-off sleeps), whatever
    the venues would answer. *)
Theorem fresh_executor_never_trades :
  forall cfg now e0 connect (venues : Live.Venues) ex order,
    LiveHealth.new cfg now = Live.Ok e0 ->
    let e := snd (LiveHealth.connect_to_exchanges connect e0) in
    let X := Live.place_order_with_retry venues ex order (LiveHealth.state e) in
    LiveHealth.is_connected e = false /\
    LiveHealth.get_connected_exchanges e = [] /\
    (forall connected now', fst (LiveHealth.check_connectivity connected now' e) =
                              Live.Err Connection) /\
    (forall r, fst X <> Live.Done (Live.Ok r)) /\
    Live.active_orders (snd X) = [] /\
    (forall ev, In ev (Live.events (snd X)) -> is_venue_call ev = false).
Proof.
  intros cfg now e0 connect venues ex order H e X.
  unfold LiveHealth.new in H.
  destruct (LiveHealth.validate_config cfg); [|discriminate H].
  injection H as <-.
  assert (He : e = LiveHealth.mkExecutor
                     (Live.mkLive cfg [] [] [] Live.default_statistics false [])
                     (LiveHealth.mkHealth false [(Binance, false)] now 0 0 0))
    by reflexivity.
  split; [rewrite He; reflexivity|].
  split; [rewrite He; reflexivity|].
  split; [intros connected now'; rewrite He; reflexivity|].
  unfold X, Live.place_order_with_retry. rewrite !bind_get. cbv zeta beta.
  destruct (retry_loop_no_connector venues ex order
              (Cfg.max_retry_attempts (Cfg.execution (Live.config (LiveHealth.state e))))
              (Cfg.max_retry_attempts (Cfg.execution (Live.config (LiveHealth.state e))))
              1 None (LiveHealth.state e)) as (H1 & H2 & H3 & H4);
    [rewrite He; reflexivity|].
  split; [exact H3|]. split; [rewrite H2, He; reflexivity|].
  intros ev Hin. destruct (H4 ev Hin) as [Hin'|Hv]; [|exact Hv].
  rewrite He in Hin'. destruct Hin'.
Qed.


(** ** The futures strategy *)

Lemma risk_score_range sp q :
  10 <= Futures.calculate_risk_score sp q <= 60.
Proof.
  unfold Futures.calculate_risk_score.
  destruct (qlt sp 10), (qlt sp 20), (qlt 1 q), (qlt (1#2) q); split; by_eval.
Qed.

Lemma scenario1_shape cfg now sym mk tk :
  Futures.scenario1 cfg now sym mk tk = [] \/
  exists bid ask o, OrderBook.best_bid mk = Some bid /\ OrderBook.best_ask tk = Some ask /\
    ask < bid /\ Futures.scenario1 cfg now sym mk tk = [o] /\
    exists sp q, Futures.risk_score o = Futures.calculate_risk_score sp q.
Proof.
  unfold Futures.scenario1.
  destruct (OrderBook.best_bid mk) as [b|]; [|left; reflexivity].
  destruct (OrderBook.best_ask tk) as [a|]; [|left; reflexivity].
  destruct (qlt a b) eqn:E; [|left; reflexivity].
  apply qlt_true in E. cbv beta iota zeta.
  repeat match goal with |- context [if ?c then _ else _] => destruct c end;
    first [left; reflexivity
          | right; do 3 eexists; split; [reflexivity|]; split; [reflexivity|];
            split; [exact E|]; split; [reflexivity|]; do 2 eexists; reflexivity].
Qed.

Lemma scenario2_shape cfg now sym mk tk :
  Futures.scenario2 cfg now sym mk tk = [] \/
  exists ask bid o, OrderBook.best_ask mk = Some ask /\ OrderBook.best_bid tk = Some bid /\
    ask < bid /\ Futures.scenario2 cfg now sym mk tk = [o] /\
    exists sp q, Futures.risk_score o = Futures.calculate_risk_score sp q.
Proof.
  unfold Futures.scenario2.
  destruct (OrderBook.best_ask mk) as [a|]; [|left; reflexivity].
  destruct (OrderBook.best_bid tk) as [b|]; [|left; reflexivity].
  destruct (qlt a b) eqn:E; [|left; reflexivity].
  apply qlt_true in E. cbv beta iota zeta.
  repeat match goal with |- context [if ?c then _ else _] => destruct c end;
    first [left; reflexivity
          | right; do 3 eexists; split; [reflexivity|]; split; [reflexivity|];
            split; [exact E|]; split; [reflexivity|]; do 2 eexists; reflexivity].
Qed.

Lemma in_futures_detect cfg now syms md o :
  In o (Futures.detect_opportunities cfg now syms md) ->
  exists sym binance_book bybit_book,
    In sym syms /\ In o (Futures.analyze_maker_taker_opportunity cfg now sym bybit_book binance_book).
Proof.
  unfold Futures.detect_opportunities.
  destruct (Futures.exchange_data Binance md) as [bn|]; [|intros []].
  destruct (Futures.exchange_data Bybit md) as [by_|]; [|intros []].
  intros H. apply in_flat_map in H. destruct H as (sym & Hs & Ho).
  destruct (lookup sym bn) as [b1|]; [|destruct Ho].
  destruct (lookup sym by_) as [b2|]; [|destruct Ho].
  exists sym, b1, b2. split; assumption.
Qed.

(** [calculate_risk_score] always lies between 10 and 60, so its cap at
    100 never applies, and every opportunity the futures detector reports
    carries a risk score in that range. *)
Theorem futures_risk_score_bounds :
  (forall spread_bps quantity,
     10 <= Futures.calculate_risk_score spread_bps quantity <= 60) /\
  (forall cfg now syms md o,
     In o (Futures.detect_opportunities cfg now syms md) ->
     10 <= Futures.risk_score o <= 60).
Proof.
  split; [exact risk_score_range|].
  intros cfg now syms md o H.
  destruct (in_futures_detect cfg now syms md o H) as (sym & b1 & b2 & _ & Ho).
  unfold Futures.analyze_maker_taker_opportunity in Ho. apply in_app_or in Ho.
  destruct Ho as [Ho|Ho].
  - destruct (scenario1_shape cfg now sym b2 b1) as [E|(x & y & o' & _ & _ & _ & E & sp & q & Hr)];
      rewrite E in Ho; [destruct Ho|].
    destruct Ho as [<-|[]]. rewrite Hr. apply risk_score_range.
  - destruct (scenario2_shape cfg now sym b2 b1) as [E|(x & y & o' & _ & _ & _ & E & sp & q & Hr)];
      rewrite E in Ho; [destruct Ho|].
    destruct Ho as [<-|[]]. rewrite Hr. apply risk_score_range.
Qed.

Lemma analyze_at_most_one cfg now sym mk tk :
  uncrossed mk -> uncrossed tk ->
  (length (Futures.analyze_maker_taker_opportunity cfg now sym mk tk) <= 1)%nat.
Proof.
  intros Hm Ht. unfold Futures.analyze_maker_taker_opportunity. rewrite length_app.
  destruct (scenario1_shape cfg now sym mk tk) as [E1|(b1 & a1 & o1 & Hb1 & Ha1 & Hl1 & E1 & _)];
  destruct (scenario2_shape cfg now sym mk tk) as [E2|(a2 & b2 & o2 & Ha2 & Hb2 & Hl2 & E2 & _)];
  rewrite E1, E2; simpl; try lia.
  exfalso. unfold uncrossed in Hm, Ht. rewrite Hb1, Ha2 in Hm. rewrite Hb2, Ha1 in Ht.
  apply (Qlt_irrefl b1).
  apply Qle_lt_trans with a2; [exact Hm|].
  apply Qlt_trans with a1; [|exact Hl1].
  apply Qlt_le_trans with b2; [exact Hl2|exact Ht].
Qed.

(** When every book in the cache is uncrossed (best bid not above best
    ask), the futures detector reports at most one opportunity per active
    symbol: the two scenarios of [analyze_maker_taker_opportunity] cannot
    both fire for the same pair of books. *)
Theorem futures_detect_one_per_symbol :
  forall cfg now syms (md : Futures.MarketData),
    (forall ex d sym b, Futures.exchange_data ex md = Some d -> lookup sym d = Some b ->
       uncrossed b) ->
    (length (Futures.detect_opportunities cfg now syms md) <= length syms)%nat.
Proof.
  intros cfg now syms md Hu. unfold Futures.detect_opportunities.
  destruct (Futures.exchange_data Binance md) as [bn|] eqn:Ebn; [|simpl; lia].
  destruct (Futures.exchange_data Bybit md) as [by_|] eqn:Eby; [|simpl; lia].
  induction syms as [|sym r IH]; simpl; [lia|].
  rewrite length_app.
  destruct (lookup sym bn) as [b1|] eqn:E1; [|simpl; lia].
  destruct (lookup sym by_) as [b2|] eqn:E2; [|simpl; lia].
  pose proof (analyze_at_most_one cfg now sym b2 b1
                (Hu _ _ _ _ Eby E2) (Hu _ _ _ _ Ebn E1)).
  lia.
Qed.

(** [execute_opportunity] first sends a post-only (GTX) limit order on
    Bybit at the maker price, and sends the immediate-or-cancel market
    order on Binance, same symbol and quantity, only once Bybit has
    accepted the first one. The statistics change only when both legs are
    accepted; when the Binance leg fails the error is returned and no
    cancel is sent for the Bybit order, which is left unhedged. *)
Theorem futures_execute_opportunity_legs :
  forall bybit_place binance_place maker_ms taker_ms now o
         (s : FuturesStrategy.FuturesArbitrageStrategy),
    let X := FuturesStrategy.execute_opportunity bybit_place binance_place maker_ms taker_ms now o s in
    exists m,
      FuturesStrategy.order_type m = FuturesStrategy.Limit /\
      FuturesStrategy.time_in_force m = FuturesStrategy.GTX /\
      FuturesStrategy.price m = Some (Futures.maker_price o) /\
      FuturesStrategy.side m = Futures.maker_side o /\
      FuturesStrategy.quantity m = Futures.quantity o /\
      FuturesStrategy.symbol m = Futures.symbol o /\
      (forall e, bybit_place m = Live.Err e ->
         fst (fst X) = Live.Err e /\ snd (fst X) = [(Bybit, m)] /\ snd X = s) /\
      (forall u, bybit_place m = Live.Ok u ->
         exists t,
           FuturesStrategy.order_type t = FuturesStrategy.Market /\
           FuturesStrategy.time_in_force t = FuturesStrategy.IOC /\
           FuturesStrategy.side t = Futures.taker_side o /\
           FuturesStrategy.quantity t = Futures.quantity o /\
           FuturesStrategy.symbol t = Futures.symbol o /\
           snd (fst X) = [(Bybit, m); (Binance, t)] /\
           (forall e, binance_place t = Live.Err e -> fst (fst X) = Live.Err e /\ snd X = s) /\
           (forall u', binance_place t = Live.Ok u' ->
              fst (fst X) = Live.Ok tt /\
              FuturesStrategy.statistics (snd X) =
                Stats.update_execution_statistics o now (FuturesStrategy.statistics s))).
Proof.
  intros bp np maker_ms taker_ms now o s X. unfold X, FuturesStrategy.execute_opportunity.
  cbv zeta. match goal with |- context [bp ?m] => exists m end.
  repeat (split; [reflexivity|]). split.
  - intros e He. rewrite He. repeat split.
  - intros u Hu. rewrite Hu. match goal with |- context [np ?t] => exists t end.
    repeat (split; [reflexivity|]).
    destruct (np _) as [u'|e'] eqn:Hn; simpl.
    + split; [reflexivity|]. split.
      * intros e He. discriminate He.
      * intros u'' _. split; reflexivity.
    + split; [reflexivity|]. split.
      * intros e He. injection He as <-. split; reflexivity.
      * intros u'' He. discriminate He.
Qed.

(** ** The spot strategy's execution path *)

Lemma qfloor_eq (y : Q) (z : Z) :
  inject_Z z <= y -> y < inject_Z (z + 1) -> Qfloor y = z.
Proof.
  intros H1 H2.
  pose proof (Qfloor_le y) as F1. pose proof (Qlt_floor y) as F2.
  assert (A : (z < Qfloor y + 1)%Z).
  { rewrite Zlt_Qlt. apply (Qle_lt_trans _ y); assumption. }
  assert (B : (Qfloor y < z + 1)%Z).
  { rewrite Zlt_Qlt. apply (Qle_lt_trans _ y); assumption. }
  lia.
Qed.

Lemma mock_spread (d : Q) :
  49505 <= d -> d < 50505 ->
  f64_round (10 / d * 10000) = 2.
Proof.
  intros H1 H2.
  assert (Hd : ~ d == 0) by (intro H; lra).
  assert (Lo : 3#2 <= 10 / d * 10000).
  { setoid_replace (10 / d * 10000) with (100000 / d) by (field; exact Hd).
    apply Qle_shift_div_l; [lra|lra]. }
  assert (Hi : 10 / d * 10000 < 5#2).
  { setoid_replace (10 / d * 10000) with (100000 / d) by (field; exact Hd).
    apply Qlt_shift_div_r; [lra|lra]. }
  unfold f64_round.
  assert (E : Qle_bool 0 (10 / d * 10000) = true) by (apply Qle_bool_iff; lra).
  rewrite E. rewrite (qfloor_eq _ 2); [reflexivity| |].
  - unfold inject_Z. lra.
  - unfold inject_Z. simpl. lra.
Qed.

Lemma spread_threshold_le_2 (m : nat) :
  Qle_bool (inject_Z (Z.of_nat m)) 2 = true <-> (m <= 2)%nat.
Proof.
  rewrite Qle_bool_iff. change 2 with (inject_Z 2). rewrite <- Zle_Qle. lia.
Qed.

(** The mock feed of [ArbitrageStrategy::update_market_data]: for any draw
    in [0, 1), the books it builds give at most one opportunity, always
    buy on Binance and sell on Bybit at a rounded spread of 2 bps; none
    when [min_spread_bps] exceeds 2 (the default is 10), and exactly one
    when the threshold is at most 2 and the order size clears the
    minimum. *)
Theorem spot_mock_feed_detection cfg now r ts1 ts2 :
  0 <= r -> r < 1 ->
  let ops := Spot.detect_opportunities cfg now
     (Some (SpotStrategy.mock_binance_book (SpotStrategy.mock_base_price r) ts1))
     (Some (SpotStrategy.mock_bybit_book (SpotStrategy.mock_base_price r) ts2)) in
  (length ops <= 1)%nat /\
  (forall o, In o ops ->
     Spot.buy_exchange o = Binance /\ Spot.sell_exchange o = Bybit /\ Spot.spread_bps o = 2) /\
  ((2 < Cfg.min_spread_bps (Cfg.strategy cfg))%nat -> ops = []) /\
  ((Cfg.min_spread_bps (Cfg.strategy cfg) <= 2)%nat ->
   qlt (Cfg.min_order_size (Cfg.execution cfg))
       (Qmin 1 (Cfg.max_position_size (Cfg.strategy cfg))) = true ->
   length ops = 1%nat).
Proof.
  intros Hr0 Hr1 ops. unfold ops; clear ops.
  assert (Hb1 : 49500 <= SpotStrategy.mock_base_price r)
    by (unfold SpotStrategy.mock_base_price; lra).
  assert (Hb2 : SpotStrategy.mock_base_price r < 50500)
    by (unfold SpotStrategy.mock_base_price; lra).
  set (b := SpotStrategy.mock_base_price r) in *.
  unfold Spot.detect_opportunities, Spot.scenario.
  cbn -[qlt Qle_bool f64_round Qmin Qminus Qplus Qmult Qdiv inject_Z].
  rewrite (proj2 (qlt_true (b + 5) (b + 15)) ltac:(lra)).
  rewrite (proj2 (qlt_false (b + 25) (b - 10)) ltac:(lra)).
  rewrite (f64_round_comp _ (10 / (b + 5) * 10000)).
  2:{ field. intro H. lra. }
  rewrite mock_spread by lra.
  replace (Qmin 1 1) with 1 by reflexivity.
  destruct (Qle_bool (inject_Z (Z.of_nat (Cfg.min_spread_bps (Cfg.strategy cfg)))) 2) eqn:Es;
  destruct (qlt (Cfg.min_order_size (Cfg.execution cfg))
                (Qmin 1 (Cfg.max_position_size (Cfg.strategy cfg)))) eqn:Eq;
  simpl; (split; [lia|]); (split; [intros o Ho; simpl in Ho;
          repeat (destruct Ho as [Ho|Ho]; [subst o; simpl; auto|]); contradiction Ho|]);
  rewrite ?spread_threshold_le_2 in Es.
  - split; [intro; lia | reflexivity].
  - split; [intro; lia | intros _ H; discriminate H].
  - split; [reflexivity | intros H; apply spread_threshold_le_2 in H; congruence].
  - split; [reflexivity | intros H; apply spread_threshold_le_2 in H; congruence].
Qed.

Lemma place_order_frame venues ex order (s : Live.LiveState) :
  let s' := snd (Live.place_order venues ex order s) in
  Live.config s' = Live.config s /\ Live.connectors s' = Live.connectors s /\
  Live.positions s' = Live.positions s /\
  Live.emergency_shutdown_flag s' = Live.emergency_shutdown_flag s.
Proof.
  unfold Live.place_order, Live.bind, Live.get. simpl.
  destruct (Live.emergency_shutdown_flag s) eqn:Ef; [simpl; auto|].
  destruct (Live.check_risk_limits s order); [|simpl; auto].
  destruct (Live.has_connector ex s); simpl; [|auto].
  destruct (Live.place_reply venues _ ex order); simpl; auto.
Qed.

Lemma place_order_not_panic venues ex order (s : Live.LiveState) :
  exists r, fst (Live.place_order venues ex order s) = Live.Done r.
Proof.
  unfold Live.place_order, Live.bind, Live.get. simpl.
  destruct (Live.emergency_shutdown_flag s); [eexists; reflexivity|].
  destruct (Live.check_risk_limits s order); [|eexists; reflexivity].
  destruct (Live.has_connector ex s); simpl; [|eexists; reflexivity].
  destruct (Live.place_reply venues _ ex order); simpl; eexists; reflexivity.
Qed.

Lemma place_order_sends venues ex order (s : Live.LiveState) :
  Live.emergency_shutdown_flag s = false ->
  Live.check_risk_limits s order = Live.Ok tt ->
  Live.has_connector ex s = true ->
  In (Live.PlaceLimitOrder ex order) (Live.events (snd (Live.place_order venues ex order s))).
Proof.
  intros Hf Hr Hc. unfold Live.place_order, Live.bind, Live.get. simpl.
  rewrite Hf, Hr, Hc. simpl.
  destruct (Live.place_reply venues _ ex order); simpl;
    apply in_or_app; right; left; reflexivity.
Qed.

Lemma check_risk_limits_frame (s s' : Live.LiveState) order :
  Live.config s' = Live.config s -> Live.positions s' = Live.positions s ->
  Live.check_risk_limits s' order = Live.check_risk_limits s order.
Proof.
  intros Hc Hp. unfold Live.check_risk_limits. rewrite Hc, Hp. reflexivity.
Qed.

(** [ArbitrageStrategy::execute_opportunity] with the live executor: when
    the buy leg fails, the sell leg is still sent to its venue (if that
    venue is connected, the flag is off and the sell passes the risk
    check); the buy leg's error is returned and the strategy statistics
    are left as they were. *)
Theorem spot_live_sell_leg_after_buy_failure venues buy_uuid sell_uuid now o
    (s : Live.LiveState) stats e :
  fst (Live.place_order venues (Spot.buy_exchange o)
         (SpotStrategy.buy_order o buy_uuid) s) = Live.Done (Live.Err e) ->
  Live.emergency_shutdown_flag s = false ->
  Live.check_risk_limits s (SpotStrategy.sell_order o sell_uuid) = Live.Ok tt ->
  Live.has_connector (Spot.sell_exchange o) s = true ->
  let '(r, s', stats') :=
    @SpotStrategy.execute_opportunity _ (SpotStrategy.live_executor venues)
      buy_uuid sell_uuid now o s stats in
  r = Live.Done (Live.Err e) /\ stats' = stats /\
  In (Live.PlaceLimitOrder (Spot.sell_exchange o) (SpotStrategy.sell_order o sell_uuid))
     (Live.events s').
Proof.
  intros Hb Hf Hr Hc.
  unfold SpotStrategy.execute_opportunity, SpotStrategy.execute_order,
    SpotStrategy.live_executor.
  pose proof (place_order_frame venues (Spot.buy_exchange o)
                (SpotStrategy.buy_order o buy_uuid) s) as (F1 & F2 & F3 & F4).
  destruct (Live.place_order venues (Spot.buy_exchange o)
              (SpotStrategy.buy_order o buy_uuid) s) as [ob s1] eqn:E1.
  simpl in Hb, F1, F2, F3, F4. subst ob.
  assert (Hs : In (Live.PlaceLimitOrder (Spot.sell_exchange o) (SpotStrategy.sell_order o sell_uuid))
      (Live.events (snd (Live.place_order venues (Spot.sell_exchange o)
                                            (SpotStrategy.sell_order o sell_uuid) s1)))).
  { apply place_order_sends.
    - rewrite F4; exact Hf.
    - rewrite (check_risk_limits_frame s s1) by assumption. exact Hr.
    - unfold Live.has_connector in *. rewrite F2. exact Hc. }
  destruct (place_order_not_panic venues (Spot.sell_exchange o)
              (SpotStrategy.sell_order o sell_uuid) s1) as [rs Hrs].
  destruct (Live.place_order venues (Spot.sell_exchange o)
              (SpotStrategy.sell_order o sell_uuid) s1) as [os s2] eqn:E2.
  simpl in Hrs, Hs. subst os.
  destruct rs; auto.
Qed.

(** [ArbitrageStrategy::execute_opportunity] with the dry-run executor:
    when neither of the two draws rejects, no error is returned, and when
    the call returns [Ok] the success statistics have been updated and the
    simulator's history has gained the buy fill and then the sell fill, at
    the opportunity's quantity and prices. *)
Theorem spot_dry_run_both_legs buy_uuid sell_uuid now o (sim : SpotStrategy.Simulated) stats :
  DryRun.should_reject_order (DryRun.exec_config (SpotStrategy.dry sim))
    (SpotStrategy.draws sim (SpotStrategy.calls sim)) = false ->
  DryRun.should_reject_order (DryRun.exec_config (SpotStrategy.dry sim))
    (SpotStrategy.draws sim (S (SpotStrategy.calls sim))) = false ->
  let '(r, sim', stats') := SpotStrategy.execute_opportunity buy_uuid sell_uuid now o sim stats in
  (forall e, r <> Live.Done (Live.Err e)) /\
  (r = Live.Done (Live.Ok tt) ->
   stats' = Stats.update_success_statistics o now stats /\
   exists rb rs,
     DryRun.execution_history (SpotStrategy.dry sim') =
       DryRun.execution_history (SpotStrategy.dry sim) ++ [rb; rs] /\
     OrderResponse.side rb = Buy /\ OrderResponse.quantity rb = Spot.quantity o /\
     OrderResponse.price rb = Spot.buy_price o /\
     OrderResponse.side rs = Sell /\ OrderResponse.quantity rs = Spot.quantity o /\
     OrderResponse.price rs = Spot.sell_price o).
Proof.
  destruct sim as [dr c ex]. simpl. intros H1 H2.
  unfold SpotStrategy.execute_opportunity, SpotStrategy.execute_order,
    SpotStrategy.dry_run_executor. simpl.
  unfold DryRun.execute_order at 1. rewrite H1. simpl.
  unfold DryRun.execute_order. simpl. rewrite H2. simpl.
  split; [intros e H; discriminate H|]. intros _.
  split; [reflexivity|].
  do 2 eexists. split; [rewrite <- app_assoc; reflexivity|].
  repeat split.
Qed.

(** ** Instances of the further properties *)

(** A fresh simulator's portfolio, at the sample mid price. *)
Lemma portfolio_new_pnl_zero_witness :
  DryRun.calculate_pnl (DryRun.Portfolio_new DryRun.default_initial_balances)
    [("BTCUSDT"%string, 49950)] == 0.
Proof.
  apply portfolio_new_pnl_zero. vm_compute.
  repeat constructor; simpl; intuition discriminate.
Defined.

(** The lossy simulator rejects on a low draw and returns no error otherwise. *)
Lemma execute_order_rejection_witness :
  DryRun.execute_order rejecting_draws sample_buy lossy_executor
    = (Live.Err Trading, lossy_executor) /\
  ~ (exists e ex', DryRun.execute_order partial_draws sample_buy lossy_executor = (Live.Err e, ex')).
Proof.
  split.
  - apply (proj2 (execute_order_rejection rejecting_draws sample_buy lossy_executor
                    Trading lossy_executor)).
    split; [split; by_eval | split; reflexivity].
  - intros (e & ex' & H).
    apply (proj1 (execute_order_rejection partial_draws sample_buy lossy_executor e ex')) in H.
    destruct H as [[_ H] _]. revert H. by_eval.
Defined.

(** A buy and a sell on the lossy simulator, with market impact on. *)
Lemma execution_price_bounds_witness :
  (LimitOrder.price sample_buy <= DryRun.calculate_execution_price lossy_executor sample_buy partial_draws /\
   forall book ask,
     DryRun.first_book "BTCUSDT" (DryRun.market_data lossy_executor) = Some book ->
     OrderBook.best_ask book = Some ask ->
     ask <= DryRun.calculate_execution_price lossy_executor sample_buy partial_draws) /\
  (DryRun.calculate_execution_price lossy_executor sample_sell partial_draws <= LimitOrder.price sample_sell /\
   forall book bid,
     DryRun.first_book "BTCUSDT" (DryRun.market_data lossy_executor) = Some book ->
     OrderBook.best_bid book = Some bid ->
     DryRun.calculate_execution_price lossy_executor sample_sell partial_draws <= bid).
Proof.
  split.
  - apply (execution_price_bounds lossy_executor sample_buy partial_draws);
      [by_eval | split; by_eval | intros _; split; by_eval].
  - apply (execution_price_bounds lossy_executor sample_sell partial_draws);
      [by_eval | split; by_eval | intros _; split; by_eval].
Defined.

(** A half fill of the sample buy on the lossy simulator. *)
Lemma execute_order_accounting_witness :
  exists r ex', DryRun.execute_order partial_draws sample_buy lossy_executor = (Live.Ok r, ex') /\
    DryRun.get_position (DryRun.portfolio ex') "BTCUSDT" ==
      DryRun.get_position (DryRun.portfolio lossy_executor) "BTCUSDT" + OrderResponse.filled_quantity r.
Proof.
  destruct (DryRun.execute_order partial_draws sample_buy lossy_executor) as [res ex'] eqn:E.
  destruct res as [r|e]; [|vm_compute in E; discriminate E].
  exists r, ex'. split; [reflexivity|].
  exact (proj1 (proj1 (execute_order_accounting partial_draws sample_buy lossy_executor ex' r E))).
Defined.

(** The sample coordinator, with both venue behaviours. *)
Lemma live_statistics_consistent_witness :
  stats_consistent (Live.statistics
    (snd (Live.place_order_with_retry accepting_venues Binance small_buy (sample_state Cfg.default)))) /\
  stats_consistent (Live.statistics
    (snd (Live.emergency_shutdown accepting_venues (sample_state Cfg.default)))).
Proof.
  apply live_statistics_consistent. unfold stats_consistent. simpl. split; reflexivity.
Defined.

(** Order "o3" placed on Binance, then order "o2" cancelled there. *)
Lemma active_orders_place_cancel_witness :
  lookup "o3"%string (Live.active_orders
    (snd (Live.place_order accepting_venues Binance small_buy (sample_state Cfg.default))))
    = Some (Binance, sample_response "o3") /\
  lookup "o2"%string (Live.active_orders
    (snd (Live.cancel_order sample_venues Binance "BTCUSDT"%string "o2"%string (sample_state Cfg.default))))
    = None.
Proof.
  destruct (active_orders_place_cancel accepting_venues (sample_state Cfg.default)) as [Hp _].
  destruct (active_orders_place_cancel sample_venues (sample_state Cfg.default)) as [_ Hc].
  split.
  - exact (proj1 (Hp Binance small_buy (sample_response "o3"%string) _ eq_refl)).
  - exact (proj1 (Hc Binance "BTCUSDT"%string "o2"%string (sample_response "cancelled"%string) _ eq_refl)).
Defined.

(** The sample coordinator with its Bybit connector reporting a lost
    connection. *)
Lemma check_connectivity_spec_witness :
  fst (LiveHealth.check_connectivity (fun x => Exchange_eqb x Binance) 0
         (LiveHealth.mkExecutor (sample_state Cfg.default)
            (LiveHealth.mkHealth true [] 0 0 0 0))) = Live.Err Connection.
Proof.
  destruct (check_connectivity_spec (fun x => Exchange_eqb x Binance) 0
              (LiveHealth.mkExecutor (sample_state Cfg.default)
                 (LiveHealth.mkHealth true [] 0 0 0 0))) as (_ & _ & _ & _ & H).
  apply (H Bybit); reflexivity.
Defined.

(** A connection error on Binance, with and without its connector, and
    with a reconnection that succeeds or fails. *)
Lemma handle_connection_error_spec_witness :
  let e0 := LiveHealth.mkExecutor (sample_state Cfg.default) (LiveHealth.mkHealth true [] 0 0 0 0) in
  let e1 := LiveHealth.mkExecutor (Live.mkLive Cfg.default [] [] [] Live.default_statistics false [])
              (LiveHealth.mkHealth true [] 0 0 0 0) in
  fst (LiveHealth.handle_connection_error (fun _ => Live.Ok tt) Binance e0) = Live.Ok tt /\
  fst (LiveHealth.handle_connection_error (fun _ => Live.Err Connection) Binance e0)
    = Live.Err Connection /\
  LiveHealth.is_connected (snd (LiveHealth.handle_connection_error (fun _ => Live.Ok tt) Binance e1))
    = false.
Proof.
  intros e0 e1.
  destruct (handle_connection_error_spec (fun _ => Live.Ok tt) Binance e0)
    as (_ & _ & _ & H2 & _).
  destruct (handle_connection_error_spec (fun _ => Live.Err Connection) Binance e0)
    as (_ & _ & _ & _ & H3).
  destruct (handle_connection_error_spec (fun _ => Live.Ok tt) Binance e1)
    as (_ & _ & H1 & _ & _).
  split; [apply H2; reflexivity|].
  split; [apply (H3 Connection); reflexivity|].
  apply H1. reflexivity.
Defined.

(** The default configuration, started and asked to place the sample buy
    on venues that would accept it. *)
Lemma fresh_executor_never_trades_witness :
  exists e0, LiveHealth.new Cfg.default 0 = Live.Ok e0 /\
    forall r, fst (Live.place_order_with_retry accepting_venues Binance small_buy
                     (LiveHealth.state (snd (LiveHealth.connect_to_exchanges
                                              (fun _ => Live.Ok tt) e0))))
              <> Live.Done (Live.Ok r).
Proof.
  destruct (LiveHealth.new Cfg.default 0) as [e0|err] eqn:E; [|discriminate E].
  exists e0. split; [reflexivity|].
  exact (proj1 (proj2 (proj2 (proj2 (fresh_executor_never_trades Cfg.default 0 e0
           (fun _ => Live.Ok tt) accepting_venues Binance small_buy E))))).
Defined.

(** The opportunity the futures detector finds in the sample books. *)
Lemma futures_risk_score_bounds_witness :
  exists o, In o (Futures.detect_opportunities sample_cfg 0%Z ["BTCUSDT"%string] sample_market_data) /\
    10 <= Futures.risk_score o <= 60.
Proof.
  remember (Futures.detect_opportunities sample_cfg 0%Z ["BTCUSDT"%string] sample_market_data)
    as L eqn:E.
  destruct L as [|o r]; [vm_compute in E; discriminate E|].
  exists o. split; [left; reflexivity|].
  apply (proj2 futures_risk_score_bounds sample_cfg 0%Z ["BTCUSDT"%string] sample_market_data).
  rewrite <- E. left. reflexivity.
Defined.

(** The sample cache, whose two books are uncrossed. *)
Lemma futures_detect_one_per_symbol_witness :
  (length (Futures.detect_opportunities sample_cfg 0%Z ["BTCUSDT"%string] sample_market_data)
     <= 1)%nat.
Proof.
  apply (futures_detect_one_per_symbol sample_cfg 0%Z ["BTCUSDT"%string] sample_market_data).
  intros ex d sym b Hd Hb.
  destruct ex; simpl in Hd; injection Hd as <-; simpl in Hb;
    destruct (String.eqb sym "BTCUSDT"); try discriminate Hb;
    injection Hb as <-; by_eval.
Defined.

(** The sample opportunity with Bybit accepting the maker order and
    Binance refusing the hedge. *)
Lemma futures_execute_opportunity_legs_witness :
  let X := FuturesStrategy.execute_opportunity (fun _ => Live.Ok tt) (fun _ => Live.Err Connection)
             0%Z 0%Z 0%Z sample_futures_opportunity (FuturesStrategy.new sample_cfg ["BTCUSDT"%string]) in
  fst (fst X) = Live.Err Connection /\ length (snd (fst X)) = 2%nat /\
  snd X = FuturesStrategy.new sample_cfg ["BTCUSDT"%string].
Proof.
  intros X.
  destruct (futures_execute_opportunity_legs (fun _ => Live.Ok tt) (fun _ => Live.Err Connection)
              0%Z 0%Z 0%Z sample_futures_opportunity (FuturesStrategy.new sample_cfg ["BTCUSDT"%string]))
    as (m & _ & _ & _ & _ & _ & _ & _ & Hok).
  destruct (Hok tt eq_refl) as (t & _ & _ & _ & _ & _ & Hcalls & Herr & _).
  destruct (Herr Connection eq_refl) as [H1 H2].
  split; [exact H1|]. split; [|exact H2].
  unfold X. rewrite Hcalls. reflexivity.
Defined.

(** The mock feed at the middle draw, under the default configuration. *)
Lemma spot_mock_feed_detection_witness :
  let ops := Spot.detect_opportunities Cfg.default 0%Z
     (Some (SpotStrategy.mock_binance_book (SpotStrategy.mock_base_price (1#2)) 0%Z))
     (Some (SpotStrategy.mock_bybit_book (SpotStrategy.mock_base_price (1#2)) 0%Z)) in
  (length ops <= 1)%nat /\
  (forall o, In o ops ->
     Spot.buy_exchange o = Binance /\ Spot.sell_exchange o = Bybit /\ Spot.spread_bps o = 2) /\
  ((2 < Cfg.min_spread_bps (Cfg.strategy Cfg.default))%nat -> ops = []) /\
  ((Cfg.min_spread_bps (Cfg.strategy Cfg.default) <= 2)%nat ->
   qlt (Cfg.min_order_size (Cfg.execution Cfg.default))
       (Qmin 1 (Cfg.max_position_size (Cfg.strategy Cfg.default))) = true ->
   length ops = 1%nat).
Proof.
  apply (spot_mock_feed_detection Cfg.default 0%Z (1#2) 0%Z 0%Z); by_eval.
Defined.

(** The sample opportunity on the sample coordinator: the buy breaks the
    position limit, the sell is still placed on Bybit. *)
Lemma spot_live_sell_leg_after_buy_failure_witness :
  let '(r, s', stats') :=
    @SpotStrategy.execute_opportunity _ (SpotStrategy.live_executor accepting_venues)
      "b1"%string "s1"%string 0%Z sample_spot_opportunity (sample_state Cfg.default)
      Stats.default_strategy_statistics in
  r = Live.Done (Live.Err RiskManagement) /\ stats' = Stats.default_strategy_statistics /\
  In (Live.PlaceLimitOrder Bybit (SpotStrategy.sell_order sample_spot_opportunity "s1"%string))
     (Live.events s').
Proof.
  apply (spot_live_sell_leg_after_buy_failure accepting_venues "b1"%string "s1"%string 0%Z
           sample_spot_opportunity (sample_state Cfg.default)
           Stats.default_strategy_statistics RiskManagement); by_eval.
Defined.

(** The sample opportunity on the lossy simulator with non-rejecting draws. *)
Lemma spot_dry_run_both_legs_witness :
  let '(r, sim', stats') :=
    SpotStrategy.execute_opportunity "b1"%string "s1"%string 0%Z sample_spot_opportunity
      (SpotStrategy.mkSim (fun _ => sample_draws) 0 lossy_executor)
      Stats.default_strategy_statistics in
  (forall e, r <> Live.Done (Live.Err e)) /\
  (r = Live.Done (Live.Ok tt) ->
   stats' = Stats.update_success_statistics sample_spot_opportunity 0%Z
              Stats.default_strategy_statistics /\
   exists rb rs,
     DryRun.execution_history (SpotStrategy.dry sim') =
       DryRun.execution_history lossy_executor ++ [rb; rs] /\
     OrderResponse.side rb = Buy /\ OrderResponse.quantity rb = Spot.quantity sample_spot_opportunity /\
     OrderResponse.price rb = Spot.buy_price sample_spot_opportunity /\
     OrderResponse.side rs = Sell /\ OrderResponse.quantity rs = Spot.quantity sample_spot_opportunity /\
     OrderResponse.price rs = Spot.sell_price sample_spot_opportunity).
Proof.
  apply (spot_dry_run_both_legs "b1"%string "s1"%string 0%Z sample_spot_opportunity
           (SpotStrategy.mkSim (fun _ => sample_draws) 0 lossy_executor)
           Stats.default_strategy_statistics); by_eval.
Defined.
